(** * Shallow embedding of vgmstream's mixing engine (src/mixing.c)

    Modelling conventions:
    - C [int]/[int32_t] values are modelled as [Z]; the code never relies on
      wrap-around (signed overflow is undefined in C), so none is written.
    - C [float]/[double] values are idealised as exact rationals [Q]; the
      transcendental functions of <math.h> used by the fade shapes and the
      layer/crosslayer volumes are the fields of a [math] record that every
      definition takes as a parameter.
    - Fixed C arrays (the 128-slot command array, the float mixing buffer,
      the pcm16 output buffer) are lists indexed by [Z]; an access out of
      range (undefined in C) reads 0 and writes nothing.
    - The [mixing_data] pointer of a stream is an [option]. *)

From Stdlib Require Import Ascii String ZArith QArith Qround List Bool Lia.
Import ListNotations.

Open Scope Z_scope.

(** ** <math.h> functions used by the mixing code *)
Record math := mkMath {
  m_exp : Q -> Q;
  m_cos : Q -> Q;
  m_sin : Q -> Q;
  m_sqrt : Q -> Q;
  M_PI : Q
}.

(** ** Data model *)

Inductive mix_command_t :=
| MIX_SWAP | MIX_ADD | MIX_VOLUME | MIX_LIMIT
| MIX_UPMIX | MIX_DOWNMIX | MIX_KILLMIX | MIX_FADE.

Definition mix_command_t_eqb (a b : mix_command_t) : bool :=
  match a, b with
  | MIX_SWAP, MIX_SWAP | MIX_ADD, MIX_ADD | MIX_VOLUME, MIX_VOLUME
  | MIX_LIMIT, MIX_LIMIT | MIX_UPMIX, MIX_UPMIX | MIX_DOWNMIX, MIX_DOWNMIX
  | MIX_KILLMIX, MIX_KILLMIX | MIX_FADE, MIX_FADE => true
  | _, _ => false
  end.

Record mix_command_data := mkMix {
  command : mix_command_t;
  ch_dst : Z;
  ch_src : Z;
  vol : Q;
  vol_start : Q;   (* volume from pre to start *)
  vol_end : Q;     (* volume from end to post *)
  shape : ascii;   (* curve type *)
  time_pre : Z;    (* -1 = beginning *)
  time_start : Z;
  time_end : Z;
  time_post : Z    (* -1 = end *)
}.

(** [mix_command_data mix = {0};] *)
Definition mix_zero : mix_command_data :=
  mkMix MIX_SWAP 0 0 0 0 0 Ascii.zero 0 0 0 0.

Definition set_time_pre (m : mix_command_data) (t : Z) : mix_command_data :=
  mkMix (command m) (ch_dst m) (ch_src m) (vol m) (vol_start m) (vol_end m)
        (shape m) t (time_start m) (time_end m) (time_post m).

Definition set_time_post (m : mix_command_data) (t : Z) : mix_command_data :=
  mkMix (command m) (ch_dst m) (ch_src m) (vol m) (vol_start m) (vol_end m)
        (shape m) (time_pre m) (time_start m) (time_end m) t.

Definition VGMSTREAM_MAX_MIXING : Z := 128.
Definition INT_MAX : Z := 2147483647.

Record mixing_data := mkData {
  mixing_channels : Z;   (* max channels needed to mix *)
  output_channels : Z;   (* resulting channels after mixing *)
  mixing_on : bool;      (* mixing allowed *)
  mixing_count : Z;      (* mixing number *)
  mixing_size : Z;       (* mixing max *)
  mixing_chain : list mix_command_data;  (* the fixed array of mixing_size slots *)
  mixbuf : list Q        (* internal mixing buffer (NULL = []) *)
}.

(** The fields of [VGMSTREAM] that the mixing code reads or writes. *)
Record VGMSTREAM := mkVGM {
  channels : Z;
  sample_rate : Z;
  loop_flag : bool;
  loop_start_sample : Z;
  loop_end_sample : Z;
  current_sample : Z;
  loop_count : Z;
  config_loop_count : Z;
  mixing_data_p : option mixing_data
}.

Definition set_data (vs : VGMSTREAM) (d : mixing_data) : VGMSTREAM :=
  mkVGM (channels vs) (sample_rate vs) (loop_flag vs) (loop_start_sample vs)
        (loop_end_sample vs) (current_sample vs) (loop_count vs)
        (config_loop_count vs) (Some d).

Definition set_config_loop_count (vs : VGMSTREAM) (n : Z) : VGMSTREAM :=
  mkVGM (channels vs) (sample_rate vs) (loop_flag vs) (loop_start_sample vs)
        (loop_end_sample vs) (current_sample vs) (loop_count vs)
        n (mixing_data_p vs).

Definition set_output_channels (d : mixing_data) (n : Z) : mixing_data :=
  mkData (mixing_channels d) n (mixing_on d) (mixing_count d) (mixing_size d)
         (mixing_chain d) (mixbuf d).

Definition set_mixing_channels (d : mixing_data) (n : Z) : mixing_data :=
  mkData n (output_channels d) (mixing_on d) (mixing_count d) (mixing_size d)
         (mixing_chain d) (mixbuf d).

Definition set_chain (d : mixing_data) (c : list mix_command_data) : mixing_data :=
  mkData (mixing_channels d) (output_channels d) (mixing_on d) (mixing_count d)
         (mixing_size d) c (mixbuf d).

(** ** Array access by a [Z] index *)

Fixpoint replace_nth {A} (n : nat) (x : A) (l : list A) : list A :=
  match l, n with
  | [], _ => []
  | _ :: t, O => x :: t
  | h :: t, S n' => h :: replace_nth n' x t
  end.

Definition aget {A} (d : A) (l : list A) (i : Z) : A :=
  if i <? 0 then d else nth (Z.to_nat i) l d.

Definition aset {A} (l : list A) (i : Z) (x : A) : list A :=
  if i <? 0 then l else replace_nth (Z.to_nat i) x l.

(** C's [a < b] on floats. *)
Definition Qlt_bool (a b : Q) : bool := negb (Qle_bool b a).

Definition fget (l : list Q) (i : Z) : Q := aget 0%Q l i.

(** ** Fade curve evaluator: [get_fade_gain] *)

Section Fade.
Variable M : math.

(** The [switch (mix->shape)] of [get_fade_gain]. *)
Definition fade_shape_gain (sh : ascii) (index : Q) : Q :=
  match sh with
  | "E"%char => m_exp M (-(5756462732485110 # 1000000000000000) * (1 - index))
  | "L"%char => 1 - m_exp M (-(5756462732485110 # 1000000000000000) * index)
  | "H"%char => (1 - m_cos M (index * M_PI M)) / 2
  | "Q"%char => m_sin M (index * M_PI M / 2)
  | "p"%char => 1 - m_sqrt M (1 - index)
  | "P"%char => 1 - (1 - index) * (1 - index)
  | _ => index   (* 'T' and default: triangular/linear *)
  end%Q.

(** [get_fade_gain]: [Some cur_vol] when it returns 1, [None] when it
    returns 0 (the [goto fail]). *)
Definition get_fade_gain (mix : mix_command_data) (current_subpos : Z) : option Q :=
  if ((current_subpos >=? time_pre mix) || (time_pre mix <? 0))
     && (current_subpos <? time_start mix) then
    Some (vol_start mix)                                   (* before *)
  else if (current_subpos >=? time_end mix)
          && ((current_subpos <? time_post mix) || (time_post mix <? 0)) then
    Some (vol_end mix)                                     (* after *)
  else if (current_subpos >=? time_start mix) && (current_subpos <? time_end mix) then
    let fade_in := Qlt_bool (vol_start mix) (vol_end mix) in
    let range_vol := (vol_end mix - vol_start mix)%Q in
    let range_dur := inject_Z (time_end mix - time_start mix) in
    let range_idx :=
      if fade_in then inject_Z (current_subpos - time_start mix)
      else inject_Z (time_end mix - current_subpos) in
    let index := (range_idx / range_dur)%Q in
    let gain := fade_shape_gain (shape mix) index in
    if fade_in then Some (vol_start mix + range_vol * gain)%Q
    else Some (vol_end mix - range_vol * gain)%Q
  else None.

End Fade.

(** ** Lifecycle and chain builder *)

Section Builder.
(** The hardware channel ceiling [VGMSTREAM_MAX_CHANNELS] is defined in
    vgmstream.h, which is not part of the sources here: it is a parameter. *)
Variable VGMSTREAM_MAX_CHANNELS : Z.
Variable M : math.

(** [mixing_init] (a failed [calloc] is not modelled). *)
Definition mixing_init (vs : VGMSTREAM) : VGMSTREAM :=
  set_data vs (mkData (channels vs) (channels vs) false 0 VGMSTREAM_MAX_MIXING
                      (repeat mix_zero (Z.to_nat VGMSTREAM_MAX_MIXING)) []).

Definition mixing_update_channel (vs : VGMSTREAM) : VGMSTREAM :=
  match mixing_data_p vs with
  | None => vs
  | Some data =>
      set_data vs (set_output_channels
                     (set_mixing_channels data (mixing_channels data + 1))
                     (output_channels data + 1))
  end.

(** [add_mixing]: the returned flag is its [int] result. *)
Definition add_mixing (vs : VGMSTREAM) (mix : mix_command_data) : bool * VGMSTREAM :=
  match mixing_data_p vs with
  | None => (false, vs)
  | Some data =>
      if mixing_on data then (false, vs)   (* ignoring new mixes when mixing active *)
      else if mixing_count data + 1 >? mixing_size data then (false, vs)  (* too many mixes *)
      else
        (true, set_data vs
                 (mkData (mixing_channels data) (output_channels data) (mixing_on data)
                         (mixing_count data + 1) (mixing_size data)
                         (aset (mixing_chain data) (mixing_count data) mix)
                         (mixbuf data)))
  end.

Definition mixing_push_swap (vs : VGMSTREAM) (ch_dst ch_src : Z) : VGMSTREAM :=
  if (ch_dst <? 0) || (ch_src <? 0) || (ch_dst =? ch_src) then vs else
  match mixing_data_p vs with
  | None => vs
  | Some data =>
      if (ch_dst >=? output_channels data) || (ch_src >=? output_channels data) then vs
      else snd (add_mixing vs (mkMix MIX_SWAP ch_dst ch_src 0 0 0 Ascii.zero 0 0 0 0))
  end.

Definition mixing_push_add (vs : VGMSTREAM) (ch_dst ch_src : Z) (volume : Q) : VGMSTREAM :=
  match mixing_data_p vs with
  | None => vs
  | Some data =>
      if Qeq_bool volume 0 then vs else
      if (ch_dst <? 0) || (ch_src <? 0) then vs else
      if (ch_dst >=? output_channels data) || (ch_src >=? output_channels data) then vs
      else snd (add_mixing vs (mkMix MIX_ADD ch_dst ch_src volume 0 0 Ascii.zero 0 0 0 0))
  end.

Definition mixing_push_volume (vs : VGMSTREAM) (ch_dst : Z) (volume : Q) : VGMSTREAM :=
  if Qeq_bool volume 1 then vs else
  match mixing_data_p vs with
  | None => vs
  | Some data =>
      if ch_dst >=? output_channels data then vs
      else snd (add_mixing vs (mkMix MIX_VOLUME ch_dst 0 volume 0 0 Ascii.zero 0 0 0 0))
  end.

Definition mixing_push_limit (vs : VGMSTREAM) (ch_dst : Z) (volume : Q) : VGMSTREAM :=
  if Qlt_bool volume 0 then vs else
  if Qeq_bool volume 1 then vs else
  match mixing_data_p vs with
  | None => vs
  | Some data =>
      if ch_dst >=? output_channels data then vs
      else snd (add_mixing vs (mkMix MIX_LIMIT ch_dst 0 volume 0 0 Ascii.zero 0 0 0 0))
  end.

(** After a successful [add_mixing] the C code updates [data] through the
    same pointer; [upd] is that update. *)
Definition with_data (vs : VGMSTREAM) (upd : mixing_data -> mixing_data) : VGMSTREAM :=
  match mixing_data_p vs with
  | None => vs
  | Some d => set_data vs (upd d)
  end.

Definition mixing_push_upmix (vs : VGMSTREAM) (ch_dst : Z) : VGMSTREAM :=
  if ch_dst <? 0 then vs else
  match mixing_data_p vs with
  | None => vs
  | Some data =>
      if (ch_dst >? output_channels data)
         || (output_channels data + 1 >? VGMSTREAM_MAX_CHANNELS) then vs
      else
        let '(ok, vs1) := add_mixing vs (mkMix MIX_UPMIX ch_dst 0 0 0 0 Ascii.zero 0 0 0 0) in
        if ok then
          with_data vs1 (fun d =>
            let d1 := set_output_channels d (output_channels d + 1) in
            if mixing_channels d1 <? output_channels d1
            then set_mixing_channels d1 (output_channels d1) else d1)
        else vs1
  end.

Definition mixing_push_downmix (vs : VGMSTREAM) (ch_dst : Z) : VGMSTREAM :=
  if ch_dst <? 0 then vs else
  match mixing_data_p vs with
  | None => vs
  | Some data =>
      if (ch_dst >=? output_channels data) || (output_channels data - 1 <? 1) then vs
      else
        let '(ok, vs1) := add_mixing vs (mkMix MIX_DOWNMIX ch_dst 0 0 0 0 Ascii.zero 0 0 0 0) in
        if ok then with_data vs1 (fun d => set_output_channels d (output_channels d - 1))
        else vs1
  end.

Definition mixing_push_killmix (vs : VGMSTREAM) (ch_dst : Z) : VGMSTREAM :=
  if ch_dst <=? 0 then vs else   (* can't kill from first channel *)
  match mixing_data_p vs with
  | None => vs
  | Some data =>
      if ch_dst >=? output_channels data then vs
      else
        let '(ok, vs1) := add_mixing vs (mkMix MIX_KILLMIX ch_dst 0 0 0 0 Ascii.zero 0 0 0 0) in
        if ok then with_data vs1 (fun d => set_output_channels d ch_dst)  (* clamp channels *)
        else vs1
  end.

(** [get_last_fade]: the index [i-1] of the slot its pointer designates. *)
Fixpoint get_last_fade_from (i : nat) (chain : list mix_command_data) (target_channel : Z)
  : option nat :=
  match i with
  | O => None
  | S i' =>
      let mix := nth i' chain mix_zero in
      if negb (mix_command_t_eqb (command mix) MIX_FADE) then
        get_last_fade_from i' chain target_channel
      else if ch_dst mix =? target_channel then Some i'
      else get_last_fade_from i' chain target_channel
  end.

Definition get_last_fade (data : mixing_data) (target_channel : Z) : option nat :=
  get_last_fade_from (Z.to_nat (mixing_count data)) (mixing_chain data) target_channel.

Definition fade_alias (shape : ascii) : ascii :=
  if (Ascii.eqb shape "{"%char) || (Ascii.eqb shape "}"%char) then "E"%char
  else if (Ascii.eqb shape "("%char) || (Ascii.eqb shape ")"%char) then "H"%char
  else shape.

(** The stitching branch taken when a previous fade [prev] exists and its
    [time_post] or the new fade's [time_pre] is negative: the updated previous
    fade and the new command. *)
Definition fade_stitch (prev mix : mix_command_data) : mix_command_data * mix_command_data :=
  let is_prev :=
    negb ((time_end prev >? time_start mix)
          || ((time_post prev >=? 0) && (time_post prev >? time_start mix))
          || ((time_pre mix >=? 0) && (time_pre mix <? time_end prev))) in
  if is_prev then
    (* change negative values to actual points *)
    let '(prev1, mix1) :=
      if (time_post prev <? 0) && (time_post prev <? 0)
      then (set_time_post prev (time_end prev), set_time_pre mix (time_end prev))
      else (prev, mix) in
    if (time_post prev1 >=? 0) && (time_pre mix1 <? 0) then
      (prev1, set_time_pre mix1 (time_post prev1))
    else if (time_post prev1 <? 0) && (time_pre mix1 >=? 0) then
      (set_time_post prev1 (time_pre mix1), mix1)
    else (prev1, mix1)
  else (prev, mix).

(** [mix_prev->time_post < 0 || mix.time_pre < 0] *)
Definition fade_open_ends (prev mix : mix_command_data) : bool :=
  (time_post prev <? 0) || (time_pre mix <? 0).

(** [mixing_push_fade].  In the no-previous-fade branch the C code assigns
    the parameters [time_pre] and [time_post], which are not read again: the
    command [mix] was filled from them before. *)
Definition mixing_push_fade (vs : VGMSTREAM) (ch_dst : Z) (vol_start vol_end : Q) (shape : ascii)
    (time_pre time_start time_end time_post : Z) : VGMSTREAM :=
  match mixing_data_p vs with
  | None => vs
  | Some data =>
      if ch_dst >=? output_channels data then vs else
      if (time_pre >? time_start) || (time_start >? time_end)
         || ((time_post >=? 0) && (time_end >? time_post)) then vs else
      if (time_start <? 0) || (time_end <? 0) then vs else
      let mix := mkMix MIX_FADE ch_dst 0 0 vol_start vol_end (fade_alias shape)
                       time_pre time_start time_end time_post in
      match get_last_fade data ch_dst with
      | None =>
          (* time_pre := time_start / time_post := time_end on the parameters only *)
          snd (add_mixing vs mix)
      | Some i =>
          let prev := nth i (mixing_chain data) mix_zero in
          if fade_open_ends prev mix then
            let '(prev', mix') := fade_stitch prev mix in
            let vs1 := set_data vs (set_chain data (replace_nth i prev' (mixing_chain data))) in
            snd (add_mixing vs1 mix')
          else snd (add_mixing vs mix)
      end
  end.

(** ** Macros *)

(** [for (i = i0; i < i0 + n; i++) body] threading a state. *)
Fixpoint for_range {A} (n : nat) (i : Z) (body : Z -> A -> A) (a : A) : A :=
  match n with
  | O => a
  | S n' => for_range n' (i + 1) body (body i a)
  end.

(** [(mask >> ch) & 1] on a [uint32_t] mask. *)
Definition mask_bit (mask ch : Z) : bool := Z.land (Z.shiftr mask ch) 1 =? 1.

(** [mixing_macro_volume]; [data->output_channels], re-read by the loop
    condition, is not changed by [mixing_push_volume]. *)
Definition mixing_macro_volume (vs : VGMSTREAM) (volume : Q) (mask : Z) : VGMSTREAM :=
  match mixing_data_p vs with
  | None => vs
  | Some data =>
      if mask =? 0 then mixing_push_volume vs (-1) volume
      else for_range (Z.to_nat (output_channels data)) 0
             (fun ch vs' => if mask_bit mask ch then mixing_push_volume vs' ch volume else vs')
             vs
  end.

(** [for (ch = n - 1; ch >= 0; ch--)] of [mixing_macro_track]. *)
Fixpoint macro_track_loop (n : nat) (mask : Z) (vs : VGMSTREAM) : VGMSTREAM :=
  match n with
  | O => vs
  | S n' =>
      let ch := Z.of_nat n' in
      macro_track_loop n' mask (if mask_bit mask ch then vs else mixing_push_downmix vs ch)
  end.

Definition mixing_macro_track (vs : VGMSTREAM) (mask : Z) : VGMSTREAM :=
  match mixing_data_p vs with
  | None => vs
  | Some data =>
      if mask =? 0 then vs
      else macro_track_loop (Z.to_nat (output_channels data)) mask vs
  end.

(** The volume computed for one layer in [mixing_macro_layer]. *)
Definition layer_volume (mode : ascii) (max ch current selected_channels : Z) : Q :=
  let volume := 1%Q in
  let volume :=
    if Ascii.eqb mode "b"%char && (ch <? max) then
      let channel_mixes := Z.quot selected_channels max in
      let channel_mixes :=
        if current <? Z.rem selected_channels (channel_mixes * max)
        then channel_mixes + 1 else channel_mixes in
      let channel_mixes := channel_mixes - 1 in
      let channel_mixes := if channel_mixes <=? 0 then 1 else channel_mixes in
      (1 / m_sqrt M (inject_Z channel_mixes))%Q
    else volume in
  if (Ascii.eqb mode "b"%char && (ch >=? max)) || Ascii.eqb mode "e"%char then
    let channel_mixes := Z.quot selected_channels max in
    let channel_mixes := if channel_mixes <=? 0 then 1 else channel_mixes in
    let channel_mixes :=
      if current <? Z.rem selected_channels (channel_mixes * max)
      then channel_mixes + 1 else channel_mixes in
    (1 / m_sqrt M (inject_Z channel_mixes))%Q
  else volume.

Definition mixing_macro_layer (vs : VGMSTREAM) (max mask : Z) (mode : ascii) : VGMSTREAM :=
  match mixing_data_p vs with
  | None => vs
  | Some data =>
      if (max <=? 0) || (output_channels data <=? max) then vs else
      let mask := if mask =? 0 then 4294967295 else mask in
      let output_channels := output_channels data in
      let selected_channels :=
        for_range (Z.to_nat output_channels) 0
          (fun ch n => n + Z.land (Z.shiftr mask ch) 1) 0 in
      let vs1 := for_range (Z.to_nat max) 0 (fun _ vs' => mixing_push_upmix vs' 0) vs in
      let '(vs2, _) :=
        for_range (Z.to_nat output_channels) 0
          (fun ch '(vs', current) =>
             if negb (mask_bit mask ch) then (vs', current) else
             let volume := layer_volume mode max ch current selected_channels in
             let vs'' := mixing_push_add vs' current (max + ch) volume in
             let current := current + 1 in
             (vs'', if current >=? max then 0 else current))
          (vs1, 0) in
      mixing_push_killmix vs2 max
  end.

(** The final "mix all tracks into first" loop of the crossfade macros. *)
Definition mix_into_first (max output_channels : Z) (vs : VGMSTREAM) : VGMSTREAM :=
  fst (for_range (Z.to_nat (output_channels - max)) max
         (fun ch '(vs', current) =>
            let vs'' := mixing_push_add vs' current ch 1 in
            let current := current + 1 in
            (vs'', if current >=? max then 0 else current))
         (vs, 0)).

(** Shared prologue: pad to even channels and raise [config_loop_count]. *)
Definition cross_prologue (vs : VGMSTREAM) (data : mixing_data) (max : Z)
  : VGMSTREAM * Z * Z :=
  let output_channels := output_channels data in
  let '(vs1, output_channels) :=
    if negb (Z.rem output_channels 2 =? 0)
    then (mixing_push_upmix vs output_channels, output_channels + 1)
    else (vs, output_channels) in
  let num := Z.quot output_channels max in
  let vs2 := if config_loop_count vs1 <? num then set_config_loop_count vs1 num else vs1 in
  (vs2, output_channels, num).

Definition mixing_macro_crosstrack (vs : VGMSTREAM) (max : Z) : VGMSTREAM :=
  match mixing_data_p vs with
  | None => vs
  | Some data =>
      if (max <=? 0) || (output_channels data <=? max) then vs else
      if negb (loop_flag vs) then vs else
      let '(vs2, output_channels, track_num) := cross_prologue vs data max in
      let '(vs3, _) :=
        for_range (Z.to_nat track_num) 0
          (fun track '(vs', ch) =>
             let volume := 1%Q in
             let loop_pre := loop_start_sample vs' in
             let loop_samples := loop_end_sample vs' - loop_start_sample vs' in
             let change_pos := loop_pre + loop_samples * track in
             let change_next := loop_pre + loop_samples * (track + 1) in
             let change_time := 15 * sample_rate vs' in
             let vs'' :=
               for_range (Z.to_nat max) 0
                 (fun track_ch v =>
                    let v := if track >? 0
                             then mixing_push_fade v (ch + track_ch) 0 volume "("%char
                                    (-1) change_pos (change_pos + change_time) (-1)
                             else v in
                    if track + 1 <? track_num
                    then mixing_push_fade v (ch + track_ch) volume 0 ")"%char
                           (-1) change_next (change_next + change_time) (-1)
                    else v)
                 vs' in
             (vs'', ch + max))
          (vs2, 0) in
      mixing_push_killmix (mix_into_first max output_channels vs3) max
  end.

(** The per-layer step of [mixing_macro_crosslayer]; the state is
    [(vgmstream, ch, volume1, volume2)]. *)
Definition crosslayer_layer (mode : ascii) (max loop change_pos change_time layer : Z)
    (st : VGMSTREAM * Z * Q * Q) : VGMSTREAM * Z * Q * Q :=
  let '(vs, ch, volume1, volume2) := st in
  let '(volume1, volume2) :=
    if Ascii.eqb mode "b"%char then
      if layer =? 0 then
        ((1 / m_sqrt M (inject_Z (if loop - 1 <=? 0 then 1 else loop - 1)))%Q,
         (1 / m_sqrt M (inject_Z loop))%Q)
      else ((1 / m_sqrt M (inject_Z loop))%Q, (1 / m_sqrt M (inject_Z (loop + 1)))%Q)
    else (volume1, volume2) in
  if layer >? loop then (vs, ch, volume1, volume2)   (* continue *)
  else
    let '(volume1, type) :=
      if layer =? loop then (0%Q, "("%char) else (volume1, ")"%char) in
    let vs' :=
      for_range (Z.to_nat max) 0
        (fun layer_ch v => mixing_push_fade v (ch + layer_ch) volume1 volume2 type
                             (-1) change_pos (change_pos + change_time) (-1))
        vs in
    (vs', ch + max, volume1, volume2).

Definition mixing_macro_crosslayer (vs : VGMSTREAM) (max : Z) (mode : ascii) : VGMSTREAM :=
  match mixing_data_p vs with
  | None => vs
  | Some data =>
      if (max <=? 0) || (output_channels data <=? max) then vs else
      if negb (loop_flag vs) then vs else
      let '(vs2, output_channels, layer_num) := cross_prologue vs data max in
      let vs3 :=
        for_range (Z.to_nat (layer_num - 1)) 1
          (fun loop vs' =>
             let loop_pre := loop_start_sample vs' in
             let loop_samples := loop_end_sample vs' - loop_start_sample vs' in
             let change_pos := loop_pre + loop_samples * loop in
             let change_time := 10 * sample_rate vs' in
             let '(volume1, volume2) :=
               if Ascii.eqb mode "e"%char
               then ((1 / m_sqrt M (inject_Z loop))%Q, (1 / m_sqrt M (inject_Z (loop + 1)))%Q)
               else (1%Q, 1%Q) in
             let '(vs'', _, _, _) :=
               for_range (Z.to_nat layer_num) 0
                 (crosslayer_layer mode max loop change_pos change_time)
                 (vs', 0, volume1, volume2) in
             vs'')
          vs2 in
      mixing_push_killmix (mix_into_first max output_channels vs3) max
  end.

(** [mixing_setup]: [realloc] keeps the old contents; the new part, whose
    contents C leaves indeterminate, is modelled as zeros (a failed
    [realloc] is not modelled). *)
Definition mixing_setup (vs : VGMSTREAM) (max_sample_count : Z) : VGMSTREAM :=
  match mixing_data_p vs with
  | None => vs
  | Some data =>
      if max_sample_count <=? 0 then vs else
      let n := Z.to_nat (max_sample_count * mixing_channels data) in
      set_data vs (mkData (mixing_channels data) (output_channels data) true
                          (mixing_count data) (mixing_size data) (mixing_chain data)
                          (firstn n (mixbuf data) ++ repeat 0%Q (n - List.length (mixbuf data))))
  end.

End Builder.

(** ** Execution engine: [mix_vgmstream] *)

(** Modelled from the spec: [clamp16] (util.h, not part of the sources here)
    clamps to the signed 16-bit range. *)
Definition clamp16 (val : Z) : Z :=
  if val >? 32767 then 32767 else if val <? -32768 then -32768 else val.

(** The C cast [(int32_t)f]: truncation toward zero. *)
Definition float_to_int32 (f : Q) : Z :=
  if Qlt_bool f 0 then - Qfloor (- f) else Qfloor f.

Definition is_active_from (chain : list mix_command_data) (current_start current_end : Z) : bool :=
  existsb (fun mix =>
             if negb (mix_command_t_eqb (command mix) MIX_FADE) then true  (* has non-fades = active *)
             else
               let fade_start := if time_pre mix <? 0 then 0 else time_pre mix in
               let fade_end := if time_post mix <? 0 then INT_MAX else time_post mix in
               (current_start <? fade_end) && (current_end >? fade_start))
          chain.

(** The active part of the command array: [mixing_chain[0 .. mixing_count)]. *)
Definition active_chain (data : mixing_data) : list mix_command_data :=
  firstn (Z.to_nat (mixing_count data)) (mixing_chain data).

Definition is_active (data : mixing_data) (current_start current_end : Z) : bool :=
  is_active_from (active_chain data) current_start current_end.

Definition get_current_pos (vs : VGMSTREAM) : Z :=
  if loop_flag vs && (current_sample vs >? loop_start_sample vs) then
    let loop_pre := loop_start_sample vs in
    let loop_into := current_sample vs - loop_start_sample vs in
    let loop_samples := loop_end_sample vs - loop_start_sample vs in
    loop_pre + loop_into + loop_samples * loop_count vs
  else current_sample vs.

Section Mix.
Variable M : math.

(** Multiply lanes [0 .. step_channels) ([ch_dst < 0]) or lane [ch_dst] by [v]. *)
Definition scale_lanes (step_channels ch_dst : Z) (v : Q) (stpbuf : list Q) : list Q :=
  if ch_dst <? 0 then
    for_range (Z.to_nat step_channels) 0 (fun ch b => aset b ch (fget b ch * v)%Q) stpbuf
  else aset stpbuf ch_dst (fget stpbuf ch_dst * v)%Q.

Definition limit_lane (temp_max temp_min : Q) (ch : Z) (b : list Q) : list Q :=
  if Qlt_bool temp_max (fget b ch) then aset b ch temp_max
  else if Qlt_bool (fget b ch) temp_min then aset b ch temp_min
  else b.

(** One command of the [switch (mix.command)] applied to the sample 'step':
    the state is [(step_channels, stpbuf)], [stpbuf] being the float buffer
    from the current row on. *)
Definition apply_mix (current_subpos : Z) (st : Z * list Q) (mix : mix_command_data)
  : Z * list Q :=
  let '(step_channels, stpbuf) := st in
  match command mix with
  | MIX_SWAP =>
      let temp_f := fget stpbuf (ch_dst mix) in
      let stpbuf := aset stpbuf (ch_dst mix) (fget stpbuf (ch_src mix)) in
      (step_channels, aset stpbuf (ch_src mix) temp_f)
  | MIX_ADD =>
      (step_channels,
       aset stpbuf (ch_dst mix) (fget stpbuf (ch_dst mix) + fget stpbuf (ch_src mix) * vol mix)%Q)
  | MIX_VOLUME => (step_channels, scale_lanes step_channels (ch_dst mix) (vol mix) stpbuf)
  | MIX_LIMIT =>
      let temp_max := (32767 * vol mix)%Q in
      let temp_min := (-32768 * vol mix)%Q in
      if ch_dst mix <? 0 then
        (step_channels,
         for_range (Z.to_nat step_channels) 0 (limit_lane temp_max temp_min) stpbuf)
      else (step_channels, limit_lane temp_max temp_min (ch_dst mix) stpbuf)
  | MIX_UPMIX =>
      let step_channels := step_channels + 1 in
      (* for (ch = step_channels - 1; ch > mix.ch_dst; ch--) *)
      let stpbuf :=
        for_range (Z.to_nat (step_channels - 1 - ch_dst mix)) 0
          (fun k b => let ch := step_channels - 1 - k in aset b ch (fget b (ch - 1)))
          stpbuf in
      (step_channels, aset stpbuf (ch_dst mix) 0%Q)   (* inserted as silent *)
  | MIX_DOWNMIX =>
      let step_channels := step_channels - 1 in
      (step_channels,
       for_range (Z.to_nat (step_channels - ch_dst mix)) (ch_dst mix)
         (fun ch b => aset b ch (fget b (ch + 1))) stpbuf)
  | MIX_KILLMIX => (ch_dst mix, stpbuf)   (* clamp channels *)
  | MIX_FADE =>
      match get_fade_gain M mix current_subpos with
      | None => (step_channels, stpbuf)
      | Some cur_vol => (step_channels, scale_lanes step_channels (ch_dst mix) cur_vol stpbuf)
      end
  end.

(** One sample 'step': copy the current lanes from [outbuf] and apply the
    chain in order. *)
Definition mix_row (chain : list mix_command_data) (current_subpos nch : Z)
    (outbuf : list Z) (out_off : Z) (stpbuf : list Q) : Z * list Q :=
  let stpbuf :=
    for_range (Z.to_nat nch) 0
      (fun ch b => aset b ch (inject_Z (aget 0 outbuf (out_off + ch)))) stpbuf in
  fold_left (apply_mix current_subpos) chain (nch, stpbuf).

(** The per-sample pass and the final copy to [outbuf]. *)
Definition mix_pass (data : mixing_data) (vs : VGMSTREAM) (outbuf : list Z)
    (sample_count current_pos : Z) : list Z * mixing_data :=
  let chain := active_chain data in
  let '(mb, _, _) :=
    for_range (Z.to_nat sample_count) 0
      (fun s '(mb, mix_off, out_off) =>
         let '(step_channels, stp) :=
           mix_row chain (current_pos + s) (channels vs) outbuf out_off
                   (skipn (Z.to_nat mix_off) mb) in
         (firstn (Z.to_nat mix_off) mb ++ stp, mix_off + step_channels, out_off + channels vs))
      (mixbuf data, 0, 0) in
  let outbuf' :=
    for_range (Z.to_nat (sample_count * output_channels data)) 0
      (fun s ob => aset ob s (clamp16 (float_to_int32 (fget mb s)))) outbuf in
  (outbuf',
   mkData (mixing_channels data) (output_channels data) (mixing_on data)
          (mixing_count data) (mixing_size data) (mixing_chain data) mb).

Definition mix_vgmstream (outbuf : list Z) (sample_count : Z) (vs : VGMSTREAM)
  : list Z * VGMSTREAM :=
  match mixing_data_p vs with
  | None => (outbuf, vs)
  | Some data =>
      (* no support or not need to apply *)
      if negb (mixing_on data) || (mixing_count data =? 0) then (outbuf, vs) else
      (* try to skip if no ops apply *)
      let current_pos := get_current_pos vs in
      if negb (is_active data current_pos (current_pos + sample_count)) then (outbuf, vs) else
      let '(ob, data') := mix_pass data vs outbuf sample_count current_pos in
      (ob, set_data vs data')
  end.

End Mix.

(** [mixing_info]: the values left in [*out_input_channels] and
    [*out_output_channels]; a pointer is [Some v] (the int it points to) or
    [None] (NULL).  Without [mixing_data] nothing is written. *)
Definition mixing_info (vs : VGMSTREAM) (out_input_channels out_output_channels : option Z)
  : option Z * option Z :=
  match mixing_data_p vs with
  | None => (out_input_channels, out_output_channels)
  | Some data =>
      let input_channels :=
        if output_channels data >? channels vs then output_channels data else channels vs in
      (option_map (fun _ => input_channels) out_input_channels,
       option_map (fun _ => output_channels data) out_output_channels)
  end.

(** * Properties *)

(** ** Helper lemmas *)

(** Turn every [Z] comparison on booleans in the goal into a case split. *)
Ltac zcases :=
  rewrite ?Z.geb_leb, ?Z.gtb_ltb in *;
  repeat match goal with
         | |- context [Z.ltb ?a ?b] => destruct (Z.ltb_spec0 a b)
         | |- context [Z.leb ?a ?b] => destruct (Z.leb_spec0 a b)
         | |- context [Z.eqb ?a ?b] => destruct (Z.eqb_spec a b)
         end.

Lemma length_replace_nth {A} (n : nat) (x : A) (l : list A) :
  length (replace_nth n x l) = length l.
Proof.
  revert n; induction l as [|h t IH]; intros [|n]; simpl; auto.
Qed.

Lemma nth_replace_nth {A} (n i : nat) (x d : A) (l : list A) :
  nth i (replace_nth n x l) d = if (Nat.eqb i n && Nat.ltb n (length l))%bool then x else nth i l d.
Proof.
  revert n i; induction l as [|h t IH]; intros [|n] [|i]; simpl;
    rewrite ?andb_false_r; auto.
Qed.

Lemma length_aset {A} (l : list A) i x : length (aset l i x) = length l.
Proof. unfold aset. destruct (i <? 0); auto using length_replace_nth. Qed.

Lemma aget_aset {A} (d : A) (l : list A) i j x :
  0 <= i < Z.of_nat (length l) ->
  aget d (aset l i x) j = if j =? i then x else aget d l j.
Proof.
  intros Hi. unfold aget, aset.
  destruct (Z.ltb_spec0 i 0); [lia|].
  destruct (Z.ltb_spec0 j 0).
  - destruct (Z.eqb_spec j i); [lia|auto].
  - rewrite nth_replace_nth.
    destruct (Z.eqb_spec j i) as [->|Hne].
    + rewrite Nat.eqb_refl. replace (Nat.ltb (Z.to_nat i) (length l)) with true; auto.
      symmetry. apply Nat.ltb_lt. lia.
    + replace (Nat.eqb (Z.to_nat j) (Z.to_nat i)) with false; auto.
      symmetry. apply Nat.eqb_neq. lia.
Qed.

(** ** C1: the fade curve evaluator *)

(** A fade as every [mixing_push_fade] call stores it: [pre <= start <= end]
    and [end <= post] when [post] is set. *)
Definition fade_wf (mix : mix_command_data) : Prop :=
  time_pre mix <= time_start mix <= time_end mix
  /\ (time_post mix < 0 \/ time_end mix <= time_post mix).

(** The normalised progress of the spec: [(pos-start)/(end-start)] for a
    fade-in ([vol_start < vol_end]), [(end-pos)/(end-start)] otherwise. *)
Definition fade_index (mix : mix_command_data) (pos : Z) : Q :=
  if Qlt_bool (vol_start mix) (vol_end mix)
  then (inject_Z (pos - time_start mix) / inject_Z (time_end mix - time_start mix))%Q
  else (inject_Z (time_end mix - pos) / inject_Z (time_end mix - time_start mix))%Q.

(** The end-to-end example command
    [Fade(all, 1.0, 0.0, 'T', pre=-1, start=0, end=100, post=-1)]. *)
Definition fade_out_example : mix_command_data :=
  mkMix MIX_FADE (-1) 0 0 1 0 "T"%char (-1) 0 100 (-1).

(** C1: inside [start, end) the gain is computed from the normalised
    index (for shape 'T' the shape gain is the index itself, and the example
    fade-out gives 0.5 at position 50); before the window it is [vol_start],
    from [end] to [post] it is [vol_end], and outside [pre, post) it is
    "not applicable" ([None]). *)
Theorem get_fade_gain_spec (M : math) (mix : mix_command_data) (pos : Z) :
  fade_wf mix ->
  (time_start mix <= pos < time_end mix ->
     get_fade_gain M mix pos =
       Some (if Qlt_bool (vol_start mix) (vol_end mix)
             then vol_start mix + (vol_end mix - vol_start mix)
                                  * fade_shape_gain M (shape mix) (fade_index mix pos)
             else vol_end mix - (vol_end mix - vol_start mix)
                                  * fade_shape_gain M (shape mix) (fade_index mix pos))%Q)
  /\ (forall index, fade_shape_gain M "T"%char index = index)
  /\ option_map Qred (get_fade_gain M fade_out_example 50) = Some (1 # 2)%Q
  /\ (pos < time_start mix -> (time_pre mix <= pos \/ time_pre mix < 0) ->
        get_fade_gain M mix pos = Some (vol_start mix))
  /\ (time_end mix <= pos -> (pos < time_post mix \/ time_post mix < 0) ->
        get_fade_gain M mix pos = Some (vol_end mix))
  /\ ((0 <= time_pre mix /\ pos < time_pre mix) \/ (0 <= time_post mix /\ time_post mix <= pos) ->
        get_fade_gain M mix pos = None).
Proof.
  intros [Hord Hpost]. unfold get_fade_gain, fade_index.
  split; [|split; [|split; [|split; [|split]]]].
  - intros Hin. zcases; simpl; try lia.
    all: destruct (Qlt_bool (vol_start mix) (vol_end mix)); reflexivity.
  - intros index. reflexivity.
  - vm_compute. reflexivity.
  - intros Hlt Hpre. zcases; simpl; try lia; reflexivity.
  - intros Hge Hlt. zcases; simpl; try lia; reflexivity.
  - intros Hout. zcases; simpl; try lia; reflexivity.
Qed.

(** A concrete [math] record, used to instantiate statements. *)
Definition identity_math : math :=
  mkMath (fun q => q) (fun q => q) (fun q => q) (fun q => q) (355 # 113).

Lemma get_fade_gain_spec_witness :
  fade_wf fade_out_example
  /\ get_fade_gain identity_math fade_out_example 50 = Some (0 - (0 - 1) * (50 # 100))%Q.
Proof.
  assert (Hwf : fade_wf fade_out_example) by (unfold fade_wf; simpl; lia).
  split; [exact Hwf|].
  destruct (get_fade_gain_spec identity_math fade_out_example 50 Hwf) as [Hin _].
  rewrite (Hin ltac:(simpl; lia)). reflexivity.
Defined.

(** ** C4: no chain or no activation means no change *)

(** C4: when the chain is empty or mixing has not been activated,
    [mix_vgmstream] leaves the output buffer (and the stream) unchanged. *)
Theorem mix_vgmstream_noop_when_inactive (M : math) (outbuf : list Z) (sample_count : Z)
    (vs : VGMSTREAM) :
  (forall d, mixing_data_p vs = Some d -> mixing_count d = 0 \/ mixing_on d = false) ->
  mix_vgmstream M outbuf sample_count vs = (outbuf, vs).
Proof.
  intros H. unfold mix_vgmstream.
  destruct (mixing_data_p vs) as [d|] eqn:E; [|reflexivity].
  destruct (H d eq_refl) as [Hc|Ho].
  - rewrite Hc. simpl. rewrite orb_true_r. reflexivity.
  - rewrite Ho. reflexivity.
Qed.

(** A two-channel stream with a swap command, not activated. *)
Definition stereo_stream : VGMSTREAM := mkVGM 2 48000 false 0 0 0 0 0 None.

Lemma mix_vgmstream_noop_when_inactive_witness :
  mix_vgmstream identity_math [100; 200] 1 (mixing_push_swap (mixing_init stereo_stream) 0 1)
  = ([100; 200], mixing_push_swap (mixing_init stereo_stream) 0 1).
Proof.
  apply mix_vgmstream_noop_when_inactive.
  intros d Hd. vm_compute in Hd. injection Hd as <-. right. reflexivity.
Defined.

(** ** C7: swap is self-inverse on a row *)

Lemma aget_ext {A} (d : A) (l1 l2 : list A) :
  length l1 = length l2 ->
  (forall i, 0 <= i < Z.of_nat (length l1) -> aget d l1 i = aget d l2 i) -> l1 = l2.
Proof.
  intros Hl H. apply nth_ext with d d; auto.
  intros n Hn. specialize (H (Z.of_nat n)). unfold aget in H.
  rewrite Nat2Z.id in H. destruct (Z.ltb_spec0 (Z.of_nat n) 0); [lia|].
  apply H. lia.
Qed.

(** C7: applying the same [Swap(a,b)] twice in a row restores the row, for
    lanes [a] and [b] inside the working buffer. *)
Theorem swap_self_inverse (M : math) (current_subpos step_channels : Z) (row : list Q)
    (mix : mix_command_data) :
  command mix = MIX_SWAP ->
  0 <= ch_dst mix < Z.of_nat (length row) ->
  0 <= ch_src mix < Z.of_nat (length row) ->
  apply_mix M current_subpos (apply_mix M current_subpos (step_channels, row) mix) mix
  = (step_channels, row).
Proof.
  intros Hc Hd Hs. unfold apply_mix. rewrite Hc. f_equal.
  unfold fget. apply (aget_ext 0%Q).
  - rewrite !length_aset. reflexivity.
  - intros i Hi. rewrite !length_aset in Hi.
    repeat rewrite aget_aset by (rewrite ?length_aset; lia).
    zcases; subst; congruence.
Qed.

Lemma swap_self_inverse_witness :
  apply_mix identity_math 0
    (apply_mix identity_math 0 (2, [1; 2]%Q) (mkMix MIX_SWAP 0 1 0 0 0 Ascii.zero 0 0 0 0))
    (mkMix MIX_SWAP 0 1 0 0 0 Ascii.zero 0 0 0 0)
  = (2, [1; 2]%Q).
Proof. apply swap_self_inverse; simpl; auto; lia. Defined.

(** ** [add_mixing] *)

Lemma add_mixing_cases (vs : VGMSTREAM) (mix : mix_command_data) :
  add_mixing vs mix = (false, vs)
  \/ exists d, mixing_data_p vs = Some d /\ mixing_on d = false
       /\ mixing_count d + 1 <= mixing_size d
       /\ add_mixing vs mix =
            (true, set_data vs (mkData (mixing_channels d) (output_channels d) (mixing_on d)
                                       (mixing_count d + 1) (mixing_size d)
                                       (aset (mixing_chain d) (mixing_count d) mix)
                                       (mixbuf d))).
Proof.
  unfold add_mixing. destruct (mixing_data_p vs) as [d|] eqn:E; [|left; reflexivity].
  destruct (mixing_on d) eqn:Eo; [left; reflexivity|].
  zcases; [left; reflexivity|]. right. exists d. rewrite Eo. repeat split; auto; lia.
Qed.

Lemma add_mixing_accept (vs : VGMSTREAM) (d : mixing_data) (mix : mix_command_data) :
  mixing_data_p vs = Some d -> mixing_on d = false -> mixing_count d + 1 <= mixing_size d ->
  exists d', mixing_data_p (snd (add_mixing vs mix)) = Some d'
             /\ mixing_count d' = mixing_count d + 1.
Proof.
  intros Hd Ho Hs. destruct (add_mixing_cases vs mix) as [Hr|(d0 & Hd0 & Ho0 & Hs0 & Hr)].
  - unfold add_mixing in Hr. rewrite Hd, Ho in Hr. revert Hr. zcases; try lia. discriminate.
  - rewrite Hr. simpl. eexists; split; [reflexivity|]. simpl.
    rewrite Hd in Hd0. injection Hd0 as ->. reflexivity.
Qed.

(** ** C6: Killmix *)

(** C6: an accepted [Killmix(k)] had [0 < k < output_channels] and leaves
    [output_channels = k]; before activation and with room in the chain every
    such [k] is accepted; any other [k] is rejected without any change. *)
Theorem mixing_push_killmix_spec (vs : VGMSTREAM) (d : mixing_data) (k : Z) :
  mixing_data_p vs = Some d ->
  (forall d', mixing_data_p (mixing_push_killmix vs k) = Some d' ->
     mixing_count d' <> mixing_count d -> 0 < k < output_channels d /\ output_channels d' = k)
  /\ (mixing_on d = false -> mixing_count d + 1 <= mixing_size d -> 0 < k < output_channels d ->
       exists d', mixing_data_p (mixing_push_killmix vs k) = Some d'
                  /\ mixing_count d' = mixing_count d + 1 /\ output_channels d' = k)
  /\ (~ (0 < k < output_channels d) -> mixing_push_killmix vs k = vs).
Proof.
  intros Hd. unfold mixing_push_killmix. rewrite Hd.
  destruct (add_mixing_cases vs (mkMix MIX_KILLMIX k 0 0 0 0 Ascii.zero 0 0 0 0))
    as [Hr|(d0 & Hd0 & Ho0 & Hs0 & Hr)]; rewrite Hr.
  - split; [|split].
    + intros d'. zcases; rewrite Hd; intros Hd'; injection Hd' as <-; tauto.
    + intros Ho Hs Hk. unfold add_mixing in Hr. rewrite Hd, Ho in Hr. revert Hr.
      zcases; try lia. discriminate.
    + intros Hk. zcases; auto; lia.
  - rewrite Hd in Hd0. injection Hd0 as <-. split; [|split].
    + intros d'. zcases; simpl; try (rewrite Hd; intros Hd'; injection Hd' as <-; tauto).
      intros Hd'. injection Hd' as <-. simpl. lia.
    + intros Ho Hs Hk. zcases; try lia. eexists; simpl; repeat split.
    + intros Hk. zcases; auto; lia.
Qed.

Lemma mixing_push_killmix_spec_witness :
  exists d', mixing_data_p (mixing_push_killmix (mixing_init stereo_stream) 1) = Some d'
             /\ mixing_count d' = 1 /\ output_channels d' = 1.
Proof.
  destruct (mixing_push_killmix_spec (mixing_init stereo_stream)
              (mkData 2 2 false 0 VGMSTREAM_MAX_MIXING
                      (repeat mix_zero (Z.to_nat VGMSTREAM_MAX_MIXING)) []) 1 eq_refl)
    as [_ [Hacc _]].
  apply Hacc; simpl; auto; unfold VGMSTREAM_MAX_MIXING; lia.
Defined.

(** ** C10: fade timing validation *)

(** C10: a fade whose [time_start] or [time_end] is negative is rejected
    without any change; [time_pre] and [time_post] may be the open value -1:
    such a fade with valid [0 <= time_start <= time_end] is appended (before
    activation, with room in the chain, on a valid channel selector). *)
Theorem mixing_push_fade_times (vs : VGMSTREAM) (ch : Z) (vol_s vol_e : Q) (sh : ascii)
    (pre st en post : Z) :
  ((st < 0 \/ en < 0) -> mixing_push_fade vs ch vol_s vol_e sh pre st en post = vs)
  /\ (forall d, mixing_data_p vs = Some d -> mixing_on d = false ->
        mixing_count d + 1 <= mixing_size d -> ch < output_channels d -> 0 <= st <= en ->
        exists d', mixing_data_p (mixing_push_fade vs ch vol_s vol_e sh (-1) st en (-1)) = Some d'
                   /\ mixing_count d' = mixing_count d + 1).
Proof.
  split.
  - intros Hneg. unfold mixing_push_fade.
    destruct (mixing_data_p vs) as [d|]; [|reflexivity].
    zcases; try reflexivity; lia.
  - intros d Hd Ho Hs Hch Hse. unfold mixing_push_fade. rewrite Hd.
    zcases; try lia.
    destruct (get_last_fade d ch) as [i|].
    + destruct (fade_open_ends _ _).
      * destruct (fade_stitch _ _) as [prev' mix'].
        apply (add_mixing_accept _ (set_chain d (replace_nth i prev' (mixing_chain d))));
          simpl; auto.
      * apply (add_mixing_accept _ d); auto.
    + apply (add_mixing_accept _ d); auto.
Qed.

Lemma mixing_push_fade_times_witness :
  mixing_push_fade (mixing_init stereo_stream) (-1) 1 0 "T"%char (-1) (-5) 100 (-1)
  = mixing_init stereo_stream.
Proof.
  destruct (mixing_push_fade_times (mixing_init stereo_stream) (-1) 1 0 "T"%char (-1) (-5) 100 (-1))
    as [Hrej _].
  apply Hrej. lia.
Defined.

(** ** C5: the activity short-circuit *)

(** The spec's effective active window of a fade, [time_pre] (or 0 when
    open) up to [time_post] (or infinite when open), meets [cs, ce). *)
Definition fade_window_hits (mix : mix_command_data) (cs ce : Z) : bool :=
  let fade_start := if time_pre mix <? 0 then 0 else time_pre mix in
  if time_post mix <? 0 then ce >? fade_start
  else (cs <? time_post mix) && (ce >? fade_start).

Lemma is_active_from_fades_only (chain : list mix_command_data) (cs ce : Z) :
  Forall (fun mix => command mix = MIX_FADE /\ fade_window_hits mix cs ce = false) chain ->
  is_active_from chain cs ce = false.
Proof.
  induction 1 as [|mix chain [Hc Hw] _ IH]; [reflexivity|].
  unfold is_active_from in *. simpl. rewrite IH, Hc. simpl. rewrite orb_false_r.
  unfold fade_window_hits in Hw. revert Hw.
  destruct (time_post mix <? 0); [|auto].
  intros Hw. rewrite Hw. apply andb_false_r.
Qed.

Lemma is_active_from_non_fade (chain : list mix_command_data) (cs ce : Z) :
  Exists (fun mix => command mix <> MIX_FADE) chain -> is_active_from chain cs ce = true.
Proof.
  intros Hex. unfold is_active_from. apply existsb_exists.
  apply Exists_exists in Hex as (mix & Hin & Hc). exists mix. split; auto.
  destruct (command mix); simpl; auto; congruence.
Qed.

(** C5: with mixing active, a chain of fades only whose effective windows all
    miss the call's range leaves the buffer (and the stream) unchanged; a
    chain with any non-fade command always runs the per-sample pass. *)
Theorem mix_vgmstream_activity (M : math) (outbuf : list Z) (sample_count : Z)
    (vs : VGMSTREAM) (d : mixing_data) :
  mixing_data_p vs = Some d -> mixing_on d = true ->
  (Forall (fun mix => command mix = MIX_FADE
                      /\ fade_window_hits mix (get_current_pos vs)
                                          (get_current_pos vs + sample_count) = false)
          (active_chain d) ->
   mix_vgmstream M outbuf sample_count vs = (outbuf, vs))
  /\ (Exists (fun mix => command mix <> MIX_FADE) (active_chain d) ->
      mix_vgmstream M outbuf sample_count vs =
        let '(ob, d') := mix_pass M d vs outbuf sample_count (get_current_pos vs) in
        (ob, set_data vs d')).
Proof.
  intros Hd Hon. unfold mix_vgmstream. rewrite Hd, Hon. simpl. split.
  - intros Hall. destruct (mixing_count d =? 0); [reflexivity|].
    unfold is_active. rewrite is_active_from_fades_only by exact Hall. reflexivity.
  - intros Hex. destruct (Z.eqb_spec (mixing_count d) 0) as [H0|H0].
    + unfold active_chain in Hex. rewrite H0 in Hex. inversion Hex.
    + unfold is_active. rewrite is_active_from_non_fade by exact Hex. reflexivity.
Qed.

(** A stereo stream with one fade whose window starts at sample 1000,
    activated for blocks of 4 samples. *)
Definition late_fade_stream : VGMSTREAM :=
  mixing_setup (mixing_push_fade (mixing_init stereo_stream) (-1) 1 0 "T"%char
                                 1000 2000 3000 (-1)) 4.

Lemma mix_vgmstream_activity_witness :
  mix_vgmstream identity_math [1; 2; 3; 4; 5; 6; 7; 8] 4 late_fade_stream
  = ([1; 2; 3; 4; 5; 6; 7; 8], late_fade_stream).
Proof.
  destruct (mix_vgmstream_activity identity_math [1; 2; 3; 4; 5; 6; 7; 8] 4 late_fade_stream
              (mkData 2 2 true 1 VGMSTREAM_MAX_MIXING
                 (mkMix MIX_FADE (-1) 0 0 1 0 "T"%char 1000 2000 3000 (-1)
                    :: repeat mix_zero 127)
                 (repeat 0%Q 8))
              eq_refl eq_refl) as [Hskip _].
  apply Hskip. vm_compute. repeat constructor.
Defined.

(** ** C8: layer downmix macro, mode 'v', on four channels *)

(** The channel ceiling only matters through the Upmix check. *)
Lemma upmix_max_irrelevant (MAX1 MAX2 : Z) (vs : VGMSTREAM) (ch : Z) :
  (forall d, mixing_data_p vs = Some d ->
     (output_channels d + 1 <= MAX1 <-> output_channels d + 1 <= MAX2)) ->
  mixing_push_upmix MAX1 vs ch = mixing_push_upmix MAX2 vs ch.
Proof.
  intros H. unfold mixing_push_upmix.
  destruct (ch <? 0); [reflexivity|].
  destruct (mixing_data_p vs) as [d|]; [|reflexivity].
  specialize (H d eq_refl).
  replace (output_channels d + 1 >? MAX2) with (output_channels d + 1 >? MAX1); [reflexivity|].
  rewrite !Z.gtb_ltb. destruct (Z.ltb_spec0 MAX1 (output_channels d + 1)),
                              (Z.ltb_spec0 MAX2 (output_channels d + 1)); auto; lia.
Qed.

Lemma macro_layer_max_irrelevant (MAX1 MAX2 : Z) (M : math) (vs : VGMSTREAM)
    (max mask : Z) (mode : ascii) :
  for_range (Z.to_nat max) 0 (fun _ vs' => mixing_push_upmix MAX1 vs' 0) vs
  = for_range (Z.to_nat max) 0 (fun _ vs' => mixing_push_upmix MAX2 vs' 0) vs ->
  mixing_macro_layer MAX1 M vs max mask mode = mixing_macro_layer MAX2 M vs max mask mode.
Proof.
  intros H. unfold mixing_macro_layer.
  destruct (mixing_data_p vs); [|reflexivity].
  destruct (_ || _); [reflexivity|]. rewrite H. reflexivity.
Qed.

(** The chain that the macro builds on four channels. *)
Definition layer_chain4 : list mix_command_data :=
  [mkMix MIX_UPMIX 0 0 0 0 0 Ascii.zero 0 0 0 0;
   mkMix MIX_UPMIX 0 0 0 0 0 Ascii.zero 0 0 0 0;
   mkMix MIX_ADD 0 2 1 0 0 Ascii.zero 0 0 0 0;
   mkMix MIX_ADD 1 3 1 0 0 Ascii.zero 0 0 0 0;
   mkMix MIX_ADD 0 4 1 0 0 Ascii.zero 0 0 0 0;
   mkMix MIX_ADD 1 5 1 0 0 Ascii.zero 0 0 0 0;
   mkMix MIX_KILLMIX 2 0 0 0 0 Ascii.zero 0 0 0 0].

Lemma layer_chain4_row (M : math) (pos : Z) (A B C D x4 x5 : Q) (rest : list Q) :
  let r := fold_left (apply_mix M pos) layer_chain4 (4, A :: B :: C :: D :: x4 :: x5 :: rest) in
  fst r = 2 /\ (fget (snd r) 0 == A + C)%Q /\ (fget (snd r) 1 == B + D)%Q.
Proof.
  cbv -[Qplus Qmult inject_Z Qeq].
  split; [reflexivity|split]; ring.
Qed.

Lemma copy_four_lanes (outbuf : list Z) (off : Z) (x0 x1 x2 x3 : Q) (rest : list Q) :
  for_range (Z.to_nat 4) 0
    (fun ch b => aset b ch (inject_Z (aget 0 outbuf (off + ch)))) (x0 :: x1 :: x2 :: x3 :: rest)
  = inject_Z (aget 0 outbuf off) :: inject_Z (aget 0 outbuf (off + 1))
    :: inject_Z (aget 0 outbuf (off + 2)) :: inject_Z (aget 0 outbuf (off + 3)) :: rest.
Proof. simpl. rewrite Z.add_0_r. reflexivity. Qed.

(** C8: on a four-channel stream, [Layer-downmix(max=2, mask=0b1111, 'v')]
    leaves [output_channels = 2], and running the resulting chain on any
    frame gives lane 0 = source lane 0 + source lane 2 and lane 1 = source
    lane 1 + source lane 3 (no volume change), for any channel ceiling of at
    least 6 and any working row of at least 6 lanes. *)
Theorem layer_downmix_v_four_channels (MAX : Z) (M : math) (vs : VGMSTREAM) :
  channels vs = 4 -> 6 <= MAX ->
  exists d,
    mixing_data_p (mixing_macro_layer MAX M (mixing_init vs) 2 15 "v"%char) = Some d
    /\ output_channels d = 2
    /\ forall (current_subpos off : Z) (outbuf : list Z) (stpbuf : list Q),
         6 <= Z.of_nat (length stpbuf) ->
         let r := mix_row M (active_chain d) current_subpos (channels vs) outbuf off stpbuf in
         fst r = 2
         /\ (fget (snd r) 0 == inject_Z (aget 0%Z outbuf off) + inject_Z (aget 0%Z outbuf (off + 2)))%Q
         /\ (fget (snd r) 1 == inject_Z (aget 0%Z outbuf (off + 1))
                                + inject_Z (aget 0%Z outbuf (off + 3)))%Q.
Proof.
  intros Hch HM. destruct vs as [chs sr lf ls le cs lc clc md]. simpl in Hch. subst chs.
  rewrite (macro_layer_max_irrelevant MAX 64).
  2:{ simpl.
      rewrite (upmix_max_irrelevant MAX 64 (mixing_init _) 0)
        by (intros d Hd; vm_compute in Hd; injection Hd as <-; simpl; lia).
      rewrite (upmix_max_irrelevant MAX 64 _ 0)
        by (intros d Hd; vm_compute in Hd; injection Hd as <-; simpl; lia).
      reflexivity. }
  destruct (mixing_data_p (mixing_macro_layer 64 M (mixing_init (mkVGM 4 sr lf ls le cs lc clc md))
                                              2 15 "v"%char)) as [d|] eqn:E.
  2:{ vm_compute in E. discriminate. }
  assert (Hd : output_channels d = 2 /\ active_chain d = layer_chain4)
    by (vm_compute in E; injection E as <-; split; vm_compute; reflexivity).
  destruct Hd as [Hoc Hc].
  exists d. split; [reflexivity|]. split; [exact Hoc|].
  intros current_subpos off outbuf stpbuf Hlen.
  destruct stpbuf as [|x0 [|x1 [|x2 [|x3 [|x4 [|x5 rest]]]]]]; simpl in Hlen; try lia.
  unfold mix_row. rewrite Hc. simpl channels. rewrite copy_four_lanes.
  apply layer_chain4_row.
Qed.

Definition quad_stream : VGMSTREAM := mkVGM 4 48000 false 0 0 0 0 0 None.

Lemma layer_downmix_v_four_channels_witness :
  exists d,
    mixing_data_p (mixing_macro_layer 64 identity_math (mixing_init quad_stream) 2 15 "v"%char)
    = Some d /\ output_channels d = 2.
Proof.
  destruct (layer_downmix_v_four_channels 64 identity_math quad_stream eq_refl ltac:(lia))
    as (d & Hd & Hoc & _).
  exists d. auto.
Defined.

(** ** C2: open boundaries of a first fade *)

(** C2: a first fade with [vol_start = 1.0] and open [pre], or with
    [vol_end = 1.0] and open [post], is stored with the open value -1: the
    no-previous-fade branch of [mixing_push_fade] assigns the parameters
    after the command has been filled from them. *)
Theorem first_fade_open_ends_stored :
  option_map (fun d => (mixing_count d, time_pre (nth 0 (mixing_chain d) mix_zero)))
    (mixing_data_p (mixing_push_fade (mixing_init stereo_stream) (-1) 1 0 "T"%char
                                     (-1) 0 100 (-1)))
  = Some (1, -1)
  /\ option_map (fun d => (mixing_count d, time_post (nth 0 (mixing_chain d) mix_zero)))
       (mixing_data_p (mixing_push_fade (mixing_init stereo_stream) (-1) 0 1 "T"%char
                                        (-1) 0 100 (-1)))
     = Some (1, -1).
Proof. split; vm_compute; reflexivity. Qed.

(** ** C3: a rejected fade still stitches the previous one *)

(** An activated stereo stream whose chain holds one fade-out with open
    [post]. *)
Definition activated_fade_stream : VGMSTREAM :=
  mixing_setup (mixing_push_fade (mixing_init stereo_stream) (-1) 1 0 "T"%char
                                 (-1) 0 100 (-1)) 4.

(** C3: after activation a new fade on the same selector is rejected by
    [add_mixing] (the count stays 1), but the stitching done before that
    call has already changed the stored fade's [time_post] from -1 to 100. *)
Theorem rejected_fade_changes_previous :
  option_map (fun d => (mixing_on d, mixing_count d, time_post (nth 0 (mixing_chain d) mix_zero)))
    (mixing_data_p activated_fade_stream) = Some (true, 1, -1)
  /\ option_map (fun d => (mixing_count d, time_post (nth 0 (mixing_chain d) mix_zero)))
       (mixing_data_p (mixing_push_fade activated_fade_stream (-1) 0 1 "T"%char
                                        (-1) 200 300 (-1)))
     = Some (1, 100).
Proof. split; vm_compute; reflexivity. Qed.

(** ** C9: [1 <= output_channels <= mixing_channels] *)

Definition mixing_inv (vs : VGMSTREAM) : Prop :=
  forall d, mixing_data_p vs = Some d -> 1 <= output_channels d <= mixing_channels d.

(** Every configuration-phase call of the API. *)
Inductive mixing_call :=
| CallSwap (ch_dst ch_src : Z)
| CallAdd (ch_dst ch_src : Z) (volume : Q)
| CallVolume (ch_dst : Z) (volume : Q)
| CallLimit (ch_dst : Z) (volume : Q)
| CallUpmix (ch_dst : Z)
| CallDownmix (ch_dst : Z)
| CallKillmix (ch_dst : Z)
| CallFade (ch_dst : Z) (vol_start vol_end : Q) (shape : ascii)
           (time_pre time_start time_end time_post : Z)
| CallMacroVolume (volume : Q) (mask : Z)
| CallMacroTrack (mask : Z)
| CallMacroLayer (max mask : Z) (mode : ascii)
| CallMacroCrosstrack (max : Z)
| CallMacroCrosslayer (max : Z) (mode : ascii)
| CallUpdateChannel
| CallSetup (max_sample_count : Z).

Definition run_call (MAX : Z) (M : math) (vs : VGMSTREAM) (c : mixing_call) : VGMSTREAM :=
  match c with
  | CallSwap d s => mixing_push_swap vs d s
  | CallAdd d s v => mixing_push_add vs d s v
  | CallVolume d v => mixing_push_volume vs d v
  | CallLimit d v => mixing_push_limit vs d v
  | CallUpmix d => mixing_push_upmix MAX vs d
  | CallDownmix d => mixing_push_downmix vs d
  | CallKillmix d => mixing_push_killmix vs d
  | CallFade d v1 v2 sh t1 t2 t3 t4 => mixing_push_fade vs d v1 v2 sh t1 t2 t3 t4
  | CallMacroVolume v mask => mixing_macro_volume vs v mask
  | CallMacroTrack mask => mixing_macro_track vs mask
  | CallMacroLayer max mask mode => mixing_macro_layer MAX M vs max mask mode
  | CallMacroCrosstrack max => mixing_macro_crosstrack MAX vs max
  | CallMacroCrosslayer max mode => mixing_macro_crosslayer MAX M vs max mode
  | CallUpdateChannel => mixing_update_channel vs
  | CallSetup n => mixing_setup vs n
  end.

Lemma inv_set_data (vs : VGMSTREAM) (d : mixing_data) :
  1 <= output_channels d <= mixing_channels d -> mixing_inv (set_data vs d).
Proof. intros H d' Hd'. injection Hd' as <-. exact H. Qed.

Lemma add_mixing_inv (vs : VGMSTREAM) (mix : mix_command_data) :
  mixing_inv vs -> mixing_inv (snd (add_mixing vs mix)).
Proof.
  intros Hinv. destruct (add_mixing_cases vs mix) as [Hr|(d & Hd & _ & _ & Hr)];
    rewrite Hr; simpl; [exact Hinv|].
  apply inv_set_data. simpl. apply Hinv, Hd.
Qed.

(** Rewrite the [add_mixing] of the goal by its two cases. *)
Ltac add_mixing_cases_in_goal :=
  match goal with
  | |- context [add_mixing ?vs ?mix] =>
      let Hr := fresh "Hr" in
      let d0 := fresh "d0" in
      let Hd0 := fresh "Hd0" in
      destruct (add_mixing_cases vs mix) as [Hr|(d0 & Hd0 & _ & _ & Hr)]; rewrite Hr
  end.

Lemma push_swap_inv vs a b : mixing_inv vs -> mixing_inv (mixing_push_swap vs a b).
Proof.
  intros H. unfold mixing_push_swap.
  destruct (_ || _); [exact H|]. destruct (mixing_data_p vs); [|exact H].
  destruct (_ || _); [exact H|]. apply add_mixing_inv, H.
Qed.

Lemma push_add_inv vs a b v : mixing_inv vs -> mixing_inv (mixing_push_add vs a b v).
Proof.
  intros H. unfold mixing_push_add. destruct (mixing_data_p vs); [|exact H].
  destruct (Qeq_bool _ _); [exact H|]. destruct (_ || _); [exact H|].
  destruct (_ || _); [exact H|]. apply add_mixing_inv, H.
Qed.

Lemma push_volume_inv vs a v : mixing_inv vs -> mixing_inv (mixing_push_volume vs a v).
Proof.
  intros H. unfold mixing_push_volume. destruct (Qeq_bool _ _); [exact H|].
  destruct (mixing_data_p vs); [|exact H].
  destruct (_ >=? _); [exact H|]. apply add_mixing_inv, H.
Qed.

Lemma push_limit_inv vs a v : mixing_inv vs -> mixing_inv (mixing_push_limit vs a v).
Proof.
  intros H. unfold mixing_push_limit. destruct (Qlt_bool _ _); [exact H|].
  destruct (Qeq_bool _ _); [exact H|]. destruct (mixing_data_p vs); [|exact H].
  destruct (_ >=? _); [exact H|]. apply add_mixing_inv, H.
Qed.

Lemma push_upmix_inv MAX vs a : mixing_inv vs -> mixing_inv (mixing_push_upmix MAX vs a).
Proof.
  intros H. unfold mixing_push_upmix. destruct (a <? 0); [exact H|].
  destruct (mixing_data_p vs) as [d|] eqn:Ed; [|exact H].
  destruct (_ || _); [exact H|].
  add_mixing_cases_in_goal; [exact H|].
  simpl. apply inv_set_data. specialize (H _ Hd0). simpl.
  destruct (Z.ltb_spec0 (mixing_channels d0) (output_channels d0 + 1)); simpl; lia.
Qed.

Lemma push_downmix_inv vs a : mixing_inv vs -> mixing_inv (mixing_push_downmix vs a).
Proof.
  intros H. unfold mixing_push_downmix. destruct (a <? 0); [exact H|].
  destruct (mixing_data_p vs) as [d|] eqn:Ed; [|exact H].
  destruct (_ || _) eqn:Eg; [exact H|].
  add_mixing_cases_in_goal; [exact H|].
  simpl. apply inv_set_data. rewrite Ed in Hd0. injection Hd0 as <-.
  specialize (H _ Ed). simpl. revert Eg. zcases; simpl; try discriminate; lia.
Qed.

Lemma push_killmix_inv vs a : mixing_inv vs -> mixing_inv (mixing_push_killmix vs a).
Proof.
  intros H. unfold mixing_push_killmix. destruct (a <=? 0) eqn:Ea; [exact H|].
  destruct (mixing_data_p vs) as [d|] eqn:Ed; [|exact H].
  destruct (a >=? output_channels d) eqn:Eg; [exact H|].
  add_mixing_cases_in_goal; [exact H|].
  simpl. apply inv_set_data. rewrite Ed in Hd0. injection Hd0 as <-.
  specialize (H _ Ed). simpl. revert Ea Eg. zcases; simpl; try discriminate; lia.
Qed.

Lemma push_fade_inv vs a v1 v2 sh t1 t2 t3 t4 :
  mixing_inv vs -> mixing_inv (mixing_push_fade vs a v1 v2 sh t1 t2 t3 t4).
Proof.
  intros H. unfold mixing_push_fade.
  destruct (mixing_data_p vs) as [d|] eqn:Ed; [|exact H].
  destruct (_ >=? _); [exact H|]. destruct (_ || _ || _); [exact H|].
  destruct (_ || _); [exact H|].
  destruct (get_last_fade d a) as [i|]; [|apply add_mixing_inv, H].
  destruct (fade_open_ends _ _); [|apply add_mixing_inv, H].
  destruct (fade_stitch _ _) as [prev' mix'].
  apply add_mixing_inv, inv_set_data. simpl. apply H, Ed.
Qed.

Lemma for_range_ind {A} (P : A -> Prop) (n : nat) (i : Z) (body : Z -> A -> A) (a : A) :
  (forall j x, P x -> P (body j x)) -> P a -> P (for_range n i body a).
Proof. revert i a. induction n as [|n IH]; intros i a Hb Ha; simpl; auto. Qed.

Lemma set_config_loop_count_inv vs n : mixing_inv vs -> mixing_inv (set_config_loop_count vs n).
Proof. intros H. exact H. Qed.

Lemma update_channel_inv vs : mixing_inv vs -> mixing_inv (mixing_update_channel vs).
Proof.
  intros H. unfold mixing_update_channel. destruct (mixing_data_p vs) as [d|] eqn:Ed; [|exact H].
  apply inv_set_data. specialize (H d Ed). simpl. lia.
Qed.

Lemma setup_inv vs n : mixing_inv vs -> mixing_inv (mixing_setup vs n).
Proof.
  intros H. unfold mixing_setup. destruct (mixing_data_p vs) as [d|] eqn:Ed; [|exact H].
  destruct (n <=? 0); [exact H|]. apply inv_set_data. simpl. apply H, Ed.
Qed.

(** ** Any property kept by the primitive builder calls is kept by the
    macros and by every configuration call. *)
Section Preservation.
Variable MAX : Z.
Variable M : math.
Variable P : VGMSTREAM -> Prop.
Hypothesis P_swap : forall vs a b, P vs -> P (mixing_push_swap vs a b).
Hypothesis P_add : forall vs a b v, P vs -> P (mixing_push_add vs a b v).
Hypothesis P_volume : forall vs a v, P vs -> P (mixing_push_volume vs a v).
Hypothesis P_limit : forall vs a v, P vs -> P (mixing_push_limit vs a v).
Hypothesis P_upmix : forall vs a, P vs -> P (mixing_push_upmix MAX vs a).
Hypothesis P_downmix : forall vs a, P vs -> P (mixing_push_downmix vs a).
Hypothesis P_killmix : forall vs a, P vs -> P (mixing_push_killmix vs a).
Hypothesis P_fade : forall vs a v1 v2 sh t1 t2 t3 t4,
  P vs -> P (mixing_push_fade vs a v1 v2 sh t1 t2 t3 t4).
Hypothesis P_config : forall vs n, P vs -> P (set_config_loop_count vs n).
Hypothesis P_update : forall vs, P vs -> P (mixing_update_channel vs).
Hypothesis P_setup : forall vs n, P vs -> P (mixing_setup vs n).

Lemma macro_volume_pres vs v mask : P vs -> P (mixing_macro_volume vs v mask).
Proof.
  intros H. unfold mixing_macro_volume. destruct (mixing_data_p vs); [|exact H].
  destruct (mask =? 0); [apply P_volume, H|].
  apply for_range_ind; [|exact H].
  intros j x Hx. destruct (mask_bit mask j); [apply P_volume|]; exact Hx.
Qed.

Lemma macro_track_pres vs mask : P vs -> P (mixing_macro_track vs mask).
Proof.
  intros H. unfold mixing_macro_track. destruct (mixing_data_p vs); [|exact H].
  destruct (mask =? 0); [exact H|].
  generalize (Z.to_nat (output_channels m)) as n. intros n. revert vs H.
  induction n as [|n IH]; intros vs H; simpl; [exact H|].
  apply IH. destruct (mask_bit mask (Z.of_nat n)); [exact H|apply P_downmix, H].
Qed.

Lemma macro_layer_pres vs max mask mode :
  P vs -> P (mixing_macro_layer MAX M vs max mask mode).
Proof.
  intros H. unfold mixing_macro_layer. destruct (mixing_data_p vs); [|exact H].
  destruct (_ || _); [exact H|].
  match goal with
  | |- context [for_range ?n 0 ?body (?v, 0)] =>
      assert (Hl : P (fst (for_range n 0 body (v, 0))))
  end.
  { apply (for_range_ind (fun st => P (fst st))).
    - intros j [x c] Hx. simpl in Hx |- *.
      destruct (negb _); [exact Hx|]. apply P_add, Hx.
    - apply for_range_ind; [|exact H]. intros j x Hx. apply P_upmix, Hx. }
  destruct (for_range _ _ _ _) as [vs2 c]. apply P_killmix, Hl.
Qed.

Lemma mix_into_first_pres max oc vs : P vs -> P (mix_into_first max oc vs).
Proof.
  intros H. unfold mix_into_first.
  apply (for_range_ind (fun st => P (fst st))); [|exact H].
  intros j [x c] Hx. apply P_add, Hx.
Qed.

Lemma cross_prologue_pres vs data max :
  P vs -> P (fst (fst (cross_prologue MAX vs data max))).
Proof.
  intros H. unfold cross_prologue.
  destruct (negb _); simpl;
    (destruct (_ <? _); [apply P_config|]);
    try apply P_upmix; exact H.
Qed.

Lemma macro_crosstrack_pres vs max :
  P vs -> P (mixing_macro_crosstrack MAX vs max).
Proof.
  intros H. unfold mixing_macro_crosstrack. destruct (mixing_data_p vs) as [d|]; [|exact H].
  destruct (_ || _); [exact H|]. destruct (negb _); [exact H|].
  pose proof (cross_prologue_pres vs d max H) as Hp.
  destruct (cross_prologue MAX vs d max) as [[vs2 oc] num]. simpl in Hp.
  match goal with
  | |- context [for_range ?n 0 ?body (vs2, 0)] =>
      assert (Hl : P (fst (for_range n 0 body (vs2, 0))))
  end.
  { apply (for_range_ind (fun st => P (fst st))); [|exact Hp].
    intros j [x c] Hx. simpl in Hx |- *.
    apply for_range_ind; [|exact Hx].
    intros k y Hy. destruct (j + 1 <? num); [apply P_fade|];
      (destruct (j >? 0); [apply P_fade|]); exact Hy. }
  destruct (for_range _ _ _ _) as [vs3 c].
  apply P_killmix, mix_into_first_pres, Hl.
Qed.

Lemma crosslayer_layer_pres mode max loop change_pos change_time layer st :
  P (fst (fst (fst st))) ->
  P (fst (fst (fst (crosslayer_layer M mode max loop change_pos change_time layer st)))).
Proof.
  destruct st as [[[vs ch] v1] v2]. simpl. intros H. unfold crosslayer_layer.
  destruct (Ascii.eqb mode "b"%char); [destruct (layer =? 0)|];
    (destruct (layer >? loop); [exact H|]);
    (destruct (layer =? loop); simpl;
     (apply for_range_ind; [intros j x Hx; apply P_fade, Hx|exact H])).
Qed.

Lemma macro_crosslayer_pres vs max mode :
  P vs -> P (mixing_macro_crosslayer MAX M vs max mode).
Proof.
  intros H. unfold mixing_macro_crosslayer. destruct (mixing_data_p vs) as [d|]; [|exact H].
  destruct (_ || _); [exact H|]. destruct (negb _); [exact H|].
  pose proof (cross_prologue_pres vs d max H) as Hp.
  destruct (cross_prologue MAX vs d max) as [[vs2 oc] num]. simpl in Hp.
  apply P_killmix, mix_into_first_pres.
  apply for_range_ind; [|exact Hp].
  intros loop x Hx.
  destruct (if Ascii.eqb mode "e"%char then _ else _) as [v1 v2].
  match goal with
  | |- context [for_range ?n 0 ?body ?st] =>
      assert (Hl : P (fst (fst (fst (for_range n 0 body st)))))
  end.
  { apply (for_range_ind (fun st => P (fst (fst (fst st))))); [|exact Hx].
    intros j st Hst. apply crosslayer_layer_pres, Hst. }
  destruct (for_range _ _ _ _) as [[[vs'' a] b] c]. exact Hl.
Qed.

Lemma run_call_pres vs c : P vs -> P (run_call MAX M vs c).
Proof.
  destruct c; simpl.
  - apply P_swap.
  - apply P_add.
  - apply P_volume.
  - apply P_limit.
  - apply P_upmix.
  - apply P_downmix.
  - apply P_killmix.
  - apply P_fade.
  - apply macro_volume_pres.
  - apply macro_track_pres.
  - apply macro_layer_pres.
  - apply macro_crosstrack_pres.
  - apply macro_crosslayer_pres.
  - apply P_update.
  - apply P_setup.
Qed.


Lemma fold_run_call_pres (calls : list mixing_call) (vs : VGMSTREAM) :
  P vs -> P (fold_left (run_call MAX M) calls vs).
Proof.
  revert vs. induction calls as [|c calls IH]; intros v Hv; simpl; [exact Hv|].
  apply IH, run_call_pres, Hv.
Qed.

End Preservation.

(** C9: from [mixing_init] on a stream of at least one channel, every
    sequence of builder calls and macros (accepted or rejected) keeps
    [1 <= output_channels <= mixing_channels]. *)
Theorem mixing_channels_invariant (MAX : Z) (M : math) (vs : VGMSTREAM) (calls : list mixing_call) :
  1 <= channels vs ->
  mixing_inv (fold_left (run_call MAX M) calls (mixing_init vs)).
Proof.
  intros Hch. apply fold_run_call_pres.
  - apply push_swap_inv.
  - apply push_add_inv.
  - apply push_volume_inv.
  - apply push_limit_inv.
  - apply push_upmix_inv.
  - apply push_downmix_inv.
  - apply push_killmix_inv.
  - apply push_fade_inv.
  - apply set_config_loop_count_inv.
  - apply update_channel_inv.
  - apply setup_inv.
  - apply inv_set_data. simpl. lia.
Qed.

Lemma mixing_channels_invariant_witness :
  mixing_inv (fold_left (run_call 64 identity_math)
                        [CallMacroLayer 2 15 "v"%char; CallDownmix 0; CallDownmix 0]
                        (mixing_init quad_stream)).
Proof. apply mixing_channels_invariant. simpl. lia. Defined.

(** ** Every fade stored in a configured chain is well formed

    Supports the hypothesis [fade_wf] of C1: the validation of
    [mixing_push_fade] and the stitching with the previous fade keep
    [time_pre <= time_start <= time_end] and [time_post < 0 \/ time_end <= time_post]
    for every [MIX_FADE] command of the chain. *)

Definition fade_ok (mix : mix_command_data) : Prop :=
  command mix = MIX_FADE -> fade_wf mix.

Definition fades_inv (vs : VGMSTREAM) : Prop :=
  forall d, mixing_data_p vs = Some d -> Forall fade_ok (mixing_chain d).

Lemma Forall_replace_nth {A} (P : A -> Prop) (n : nat) (x : A) (l : list A) :
  Forall P l -> P x -> Forall P (replace_nth n x l).
Proof.
  revert n. induction l as [|h t IH]; intros [|n] Hl Hx; simpl; [constructor|constructor| |];
    apply Forall_cons_iff in Hl as [Hh Ht]; constructor; auto.
Qed.

Lemma Forall_aset {A} (P : A -> Prop) (l : list A) (i : Z) (x : A) :
  Forall P l -> P x -> Forall P (aset l i x).
Proof. intros Hl Hx. unfold aset. destruct (i <? 0); [exact Hl|]. apply Forall_replace_nth; auto. Qed.

Lemma Forall_nth_default {A} (P : A -> Prop) (l : list A) (i : nat) (d : A) :
  Forall P l -> P d -> P (nth i l d).
Proof. intros Hl Hd. revert i. induction Hl as [|h t Hh Ht IH]; intros [|i]; simpl; auto. Qed.

Lemma fades_set_data (vs : VGMSTREAM) (d : mixing_data) :
  Forall fade_ok (mixing_chain d) -> fades_inv (set_data vs d).
Proof. intros H d' Hd'. injection Hd' as <-. exact H. Qed.

Lemma add_mixing_fades (vs : VGMSTREAM) (mix : mix_command_data) :
  fades_inv vs -> fade_ok mix -> fades_inv (snd (add_mixing vs mix)).
Proof.
  intros Hinv Hm. destruct (add_mixing_cases vs mix) as [Hr|(d & Hd & _ & _ & Hr)];
    rewrite Hr; simpl; [exact Hinv|].
  apply fades_set_data. simpl. apply Forall_aset; [apply Hinv, Hd | exact Hm].
Qed.

Lemma fade_stitch_command (prev mix : mix_command_data) :
  command (fst (fade_stitch prev mix)) = command prev
  /\ command (snd (fade_stitch prev mix)) = command mix.
Proof.
  unfold fade_stitch. zcases; simpl; auto; zcases; simpl; auto.
Qed.

Lemma fade_stitch_wf_mix (prev mix : mix_command_data) :
  fade_wf mix -> fade_wf (snd (fade_stitch prev mix)).
Proof.
  destruct prev as [c1 d1 s1 v1 a1 b1 h1 p1 st1 e1 q1],
           mix as [c2 d2 s2 v2 a2 b2 h2 p2 st2 e2 q2].
  unfold fade_wf, fade_stitch, set_time_pre, set_time_post; simpl.
  intros Hm. zcases; simpl; zcases; simpl; lia.
Qed.

Lemma fade_stitch_wf_prev (prev mix : mix_command_data) :
  fade_wf prev -> fade_wf (fst (fade_stitch prev mix)).
Proof.
  destruct prev as [c1 d1 s1 v1 a1 b1 h1 p1 st1 e1 q1],
           mix as [c2 d2 s2 v2 a2 b2 h2 p2 st2 e2 q2].
  unfold fade_wf, fade_stitch, set_time_pre, set_time_post; simpl.
  intros Hp. zcases; simpl; zcases; simpl; lia.
Qed.

Lemma fade_stitch_ok (prev mix : mix_command_data) :
  fade_ok prev -> fade_wf mix ->
  fade_ok (fst (fade_stitch prev mix)) /\ fade_wf (snd (fade_stitch prev mix)).
Proof.
  intros Hp Hm. destruct (fade_stitch_command prev mix) as [Hc1 _]. split.
  - intros Hc. rewrite Hc1 in Hc. apply fade_stitch_wf_prev, Hp, Hc.
  - apply fade_stitch_wf_mix, Hm.
Qed.

Ltac fades_push H :=
  first [ exact H
        | apply add_mixing_fades; [exact H | intros ?Hc; discriminate Hc] ].

Lemma push_swap_fades vs a b : fades_inv vs -> fades_inv (mixing_push_swap vs a b).
Proof.
  intros H. unfold mixing_push_swap.
  destruct (_ || _); [exact H|]. destruct (mixing_data_p vs); [|exact H].
  destruct (_ || _); fades_push H.
Qed.

Lemma push_add_fades vs a b v : fades_inv vs -> fades_inv (mixing_push_add vs a b v).
Proof.
  intros H. unfold mixing_push_add. destruct (mixing_data_p vs); [|exact H].
  destruct (Qeq_bool _ _); [exact H|]. destruct (_ || _); [exact H|].
  destruct (_ || _); fades_push H.
Qed.

Lemma push_volume_fades vs a v : fades_inv vs -> fades_inv (mixing_push_volume vs a v).
Proof.
  intros H. unfold mixing_push_volume. destruct (Qeq_bool _ _); [exact H|].
  destruct (mixing_data_p vs); [|exact H]. destruct (_ >=? _); fades_push H.
Qed.

Lemma push_limit_fades vs a v : fades_inv vs -> fades_inv (mixing_push_limit vs a v).
Proof.
  intros H. unfold mixing_push_limit. destruct (Qlt_bool _ _); [exact H|].
  destruct (Qeq_bool _ _); [exact H|]. destruct (mixing_data_p vs); [|exact H].
  destruct (_ >=? _); fades_push H.
Qed.

Lemma push_upmix_fades MAX vs a : fades_inv vs -> fades_inv (mixing_push_upmix MAX vs a).
Proof.
  intros H. unfold mixing_push_upmix. destruct (a <? 0); [exact H|].
  destruct (mixing_data_p vs); [|exact H]. destruct (_ || _); [exact H|].
  add_mixing_cases_in_goal; [exact H|].
  simpl. apply fades_set_data.
  destruct (_ <? _); simpl; (apply Forall_aset; [apply H, Hd0 | intros Hc; discriminate Hc]).
Qed.

Lemma push_downmix_fades vs a : fades_inv vs -> fades_inv (mixing_push_downmix vs a).
Proof.
  intros H. unfold mixing_push_downmix. destruct (a <? 0); [exact H|].
  destruct (mixing_data_p vs); [|exact H]. destruct (_ || _); [exact H|].
  add_mixing_cases_in_goal; [exact H|].
  simpl. apply fades_set_data. simpl.
  apply Forall_aset; [apply H, Hd0 | intros Hc; discriminate Hc].
Qed.

Lemma push_killmix_fades vs a : fades_inv vs -> fades_inv (mixing_push_killmix vs a).
Proof.
  intros H. unfold mixing_push_killmix. destruct (a <=? 0); [exact H|].
  destruct (mixing_data_p vs); [|exact H]. destruct (_ >=? _); [exact H|].
  add_mixing_cases_in_goal; [exact H|].
  simpl. apply fades_set_data. simpl.
  apply Forall_aset; [apply H, Hd0 | intros Hc; discriminate Hc].
Qed.

Lemma push_fade_fades vs a v1 v2 sh t1 t2 t3 t4 :
  fades_inv vs -> fades_inv (mixing_push_fade vs a v1 v2 sh t1 t2 t3 t4).
Proof.
  intros H. unfold mixing_push_fade.
  destruct (mixing_data_p vs) as [d|] eqn:Ed; [|exact H].
  destruct (_ >=? _); [exact H|].
  destruct ((t1 >? t2) || (t2 >? t3) || ((t4 >=? 0) && (t3 >? t4))) eqn:Ev; [exact H|].
  destruct ((t2 <? 0) || (t3 <? 0)); [exact H|].
  assert (Hm : fade_wf (mkMix MIX_FADE a 0 0 v1 v2 (fade_alias sh) t1 t2 t3 t4)).
  { unfold fade_wf; simpl. revert Ev. zcases; simpl; try discriminate; lia. }
  destruct (get_last_fade d a) as [i|];
    [|apply add_mixing_fades; [exact H | intros _; exact Hm]].
  destruct (fade_open_ends _ _); [|apply add_mixing_fades; [exact H | intros _; exact Hm]].
  assert (Hp : fade_ok (nth i (mixing_chain d) mix_zero)).
  { apply Forall_nth_default; [apply H, Ed | intros Hc; discriminate Hc]. }
  destruct (fade_stitch_ok _ _ Hp Hm) as [Hp' Hm'].
  destruct (fade_stitch _ _) as [prev' mix']. simpl in Hp', Hm'.
  apply add_mixing_fades; [|intros _; exact Hm'].
  apply fades_set_data. simpl. apply Forall_replace_nth; [apply H, Ed | exact Hp'].
Qed.

Lemma update_channel_fades vs : fades_inv vs -> fades_inv (mixing_update_channel vs).
Proof.
  intros H. unfold mixing_update_channel. destruct (mixing_data_p vs) as [d|] eqn:Ed; [|exact H].
  apply fades_set_data. exact (H d Ed).
Qed.

Lemma setup_fades vs n : fades_inv vs -> fades_inv (mixing_setup vs n).
Proof.
  intros H. unfold mixing_setup. destruct (mixing_data_p vs) as [d|] eqn:Ed; [|exact H].
  destruct (_ <=? _); [exact H|]. apply fades_set_data. exact (H d Ed).
Qed.

(** Every [MIX_FADE] command of the chain built from [mixing_init] by any
    sequence of builder calls and macros satisfies [fade_wf]. *)
Theorem reachable_fades_wf (MAX : Z) (M : math) (vs : VGMSTREAM) (calls : list mixing_call)
    (d : mixing_data) (mix : mix_command_data) :
  mixing_data_p (fold_left (run_call MAX M) calls (mixing_init vs)) = Some d ->
  In mix (mixing_chain d) -> command mix = MIX_FADE -> fade_wf mix.
Proof.
  intros Hd Hin. revert mix Hin.
  apply (proj1 (Forall_forall fade_ok (mixing_chain d))). revert d Hd.
  apply fold_run_call_pres.
  - apply push_swap_fades.
  - apply push_add_fades.
  - apply push_volume_fades.
  - apply push_limit_fades.
  - apply push_upmix_fades.
  - apply push_downmix_fades.
  - apply push_killmix_fades.
  - apply push_fade_fades.
  - intros v n Hv. exact Hv.
  - apply update_channel_fades.
  - apply setup_fades.
  - apply fades_set_data. unfold mixing_chain. apply Forall_forall. intros m Hm.
    apply repeat_spec in Hm. subst m. intros Hc; discriminate Hc.
Qed.

(** * Further properties of the mixing code *)

(** ** How a stream's mixing state evolves under the builder calls *)

(** The changes a builder call can make to [mixing_data]: [mixing_channels]
    only grows, the array keeps its size, [mixing_count] only grows and never
    passes [mixing_size]. *)
Definition data_step (d d' : mixing_data) : Prop :=
  mixing_channels d <= mixing_channels d'
  /\ mixing_size d' = mixing_size d
  /\ length (mixing_chain d') = length (mixing_chain d)
  /\ mixing_count d <= mixing_count d'
  /\ (mixing_count d <= mixing_size d -> mixing_count d' <= mixing_size d').

Definition evolves (v v' : VGMSTREAM) : Prop :=
  channels v' = channels v
  /\ (forall d, mixing_data_p v = Some d ->
        exists d', mixing_data_p v' = Some d' /\ data_step d d')
  /\ (mixing_data_p v = None -> mixing_data_p v' = None).

Lemma data_step_refl d : data_step d d.
Proof. unfold data_step. repeat split; lia. Qed.

Lemma data_step_trans d1 d2 d3 : data_step d1 d2 -> data_step d2 d3 -> data_step d1 d3.
Proof. unfold data_step. intros (H1 & H2 & H3 & H4 & H5) (G1 & G2 & G3 & G4 & G5). repeat split; lia. Qed.

Lemma evolves_refl v : evolves v v.
Proof. repeat split; auto. intros d Hd. exists d. split; [exact Hd|apply data_step_refl]. Qed.

Lemma evolves_trans v1 v2 v3 : evolves v1 v2 -> evolves v2 v3 -> evolves v1 v3.
Proof.
  intros (H1 & H2 & H3) (G1 & G2 & G3). split; [congruence|split; [|auto]].
  intros d Hd. destruct (H2 d Hd) as (d2 & Hd2 & S2). destruct (G2 d2 Hd2) as (d3 & Hd3 & S3).
  exists d3. split; [exact Hd3|eapply data_step_trans; eauto].
Qed.

Lemma evolves_set_data v d d' :
  mixing_data_p v = Some d -> data_step d d' -> evolves v (set_data v d').
Proof.
  intros Hd Hs. split; [reflexivity|split].
  - intros d0 Hd0. rewrite Hd in Hd0. injection Hd0 as <-. exists d'. split; [reflexivity|exact Hs].
  - congruence.
Qed.

Lemma add_mixing_evolves vs mix : evolves vs (snd (add_mixing vs mix)).
Proof.
  destruct (add_mixing_cases vs mix) as [Hr|(d & Hd & _ & Hs & Hr)]; rewrite Hr; simpl;
    [apply evolves_refl|].
  apply (evolves_set_data _ d); [exact Hd|]. unfold data_step; simpl.
  rewrite length_aset. repeat split; lia.
Qed.

Lemma evolves_with_data v v1 upd :
  evolves v v1 -> (forall d, mixing_data_p v1 = Some d -> data_step d (upd d)) ->
  evolves v (with_data v1 upd).
Proof.
  intros H Hu. unfold with_data. destruct (mixing_data_p v1) as [d|] eqn:E; [|exact H].
  eapply evolves_trans; [exact H|]. apply (evolves_set_data _ d); auto.
Qed.

(** [snd (add_mixing ...)] followed by the pointer update [upd] when accepted. *)
Lemma add_then_evolves vs mix (k : bool -> VGMSTREAM -> VGMSTREAM) :
  (forall ok v, evolves vs v -> evolves vs (k ok v)) ->
  evolves vs (let '(ok, vs1) := add_mixing vs mix in k ok vs1).
Proof.
  intros Hk. pose proof (add_mixing_evolves vs mix) as He.
  destruct (add_mixing vs mix) as [ok vs1]. apply Hk, He.
Qed.

Lemma push_swap_evolves vs a b : evolves vs (mixing_push_swap vs a b).
Proof.
  unfold mixing_push_swap. destruct (_ || _); [apply evolves_refl|].
  destruct (mixing_data_p vs); [|apply evolves_refl].
  destruct (_ || _); [apply evolves_refl|apply add_mixing_evolves].
Qed.

Lemma push_add_evolves vs a b v : evolves vs (mixing_push_add vs a b v).
Proof.
  unfold mixing_push_add. destruct (mixing_data_p vs); [|apply evolves_refl].
  destruct (Qeq_bool _ _); [apply evolves_refl|]. destruct (_ || _); [apply evolves_refl|].
  destruct (_ || _); [apply evolves_refl|apply add_mixing_evolves].
Qed.

Lemma push_volume_evolves vs a v : evolves vs (mixing_push_volume vs a v).
Proof.
  unfold mixing_push_volume. destruct (Qeq_bool _ _); [apply evolves_refl|].
  destruct (mixing_data_p vs); [|apply evolves_refl].
  destruct (_ >=? _); [apply evolves_refl|apply add_mixing_evolves].
Qed.

Lemma push_limit_evolves vs a v : evolves vs (mixing_push_limit vs a v).
Proof.
  unfold mixing_push_limit. destruct (Qlt_bool _ _); [apply evolves_refl|].
  destruct (Qeq_bool _ _); [apply evolves_refl|]. destruct (mixing_data_p vs); [|apply evolves_refl].
  destruct (_ >=? _); [apply evolves_refl|apply add_mixing_evolves].
Qed.

Lemma push_upmix_evolves MAX vs a : evolves vs (mixing_push_upmix MAX vs a).
Proof.
  unfold mixing_push_upmix. destruct (a <? 0); [apply evolves_refl|].
  destruct (mixing_data_p vs); [|apply evolves_refl]. destruct (_ || _); [apply evolves_refl|].
  apply add_then_evolves. intros [|] v Hv; [|exact Hv].
  apply evolves_with_data; [exact Hv|]. intros d _. unfold data_step. simpl.
  destruct (Z.ltb_spec0 (mixing_channels d) (output_channels d + 1)); simpl; repeat split; lia.
Qed.

Lemma push_downmix_evolves vs a : evolves vs (mixing_push_downmix vs a).
Proof.
  unfold mixing_push_downmix. destruct (a <? 0); [apply evolves_refl|].
  destruct (mixing_data_p vs); [|apply evolves_refl]. destruct (_ || _); [apply evolves_refl|].
  apply add_then_evolves. intros [|] v Hv; [|exact Hv].
  apply evolves_with_data; [exact Hv|]. intros d _. unfold data_step; simpl. repeat split; lia.
Qed.

Lemma push_killmix_evolves vs a : evolves vs (mixing_push_killmix vs a).
Proof.
  unfold mixing_push_killmix. destruct (a <=? 0); [apply evolves_refl|].
  destruct (mixing_data_p vs); [|apply evolves_refl]. destruct (_ >=? _); [apply evolves_refl|].
  apply add_then_evolves. intros [|] v Hv; [|exact Hv].
  apply evolves_with_data; [exact Hv|]. intros d _. unfold data_step; simpl. repeat split; lia.
Qed.

Lemma push_fade_evolves vs a v1 v2 sh t1 t2 t3 t4 :
  evolves vs (mixing_push_fade vs a v1 v2 sh t1 t2 t3 t4).
Proof.
  unfold mixing_push_fade. destruct (mixing_data_p vs) as [d|] eqn:Ed; [|apply evolves_refl].
  destruct (_ >=? _); [apply evolves_refl|].
  destruct ((t1 >? t2) || (t2 >? t3) || ((t4 >=? 0) && (t3 >? t4))); [apply evolves_refl|].
  destruct ((t2 <? 0) || (t3 <? 0)); [apply evolves_refl|].
  destruct (get_last_fade d a) as [i|]; [|apply add_mixing_evolves].
  destruct (fade_open_ends _ _); [|apply add_mixing_evolves].
  destruct (fade_stitch _ _) as [prev' mix'].
  eapply evolves_trans; [|apply add_mixing_evolves].
  apply (evolves_set_data _ d); [exact Ed|]. unfold data_step; simpl.
  rewrite length_replace_nth. repeat split; lia.
Qed.

Lemma config_evolves vs n : evolves vs (set_config_loop_count vs n).
Proof.
  split; [reflexivity|split; [|auto]].
  intros d Hd. exists d. split; [exact Hd|apply data_step_refl].
Qed.

Lemma update_channel_evolves vs : evolves vs (mixing_update_channel vs).
Proof.
  unfold mixing_update_channel. destruct (mixing_data_p vs) as [d|] eqn:Ed; [|apply evolves_refl].
  apply (evolves_set_data _ d); [exact Ed|]. unfold data_step; simpl. repeat split; lia.
Qed.

Lemma setup_evolves vs n : evolves vs (mixing_setup vs n).
Proof.
  unfold mixing_setup. destruct (mixing_data_p vs) as [d|] eqn:Ed; [|apply evolves_refl].
  destruct (_ <=? _); [apply evolves_refl|].
  apply (evolves_set_data _ d); [exact Ed|]. unfold data_step; simpl. repeat split; lia.
Qed.

(** Every state reached from [v0] by builder calls has evolved from [v0]. *)
Lemma fold_evolves (MAX : Z) (M : math) (v0 : VGMSTREAM) (calls : list mixing_call) :
  evolves v0 (fold_left (run_call MAX M) calls v0).
Proof.
  apply (fold_run_call_pres MAX M (evolves v0)); try (apply evolves_refl);
    intros; eapply evolves_trans; eauto using push_swap_evolves, push_add_evolves,
    push_volume_evolves, push_limit_evolves, push_upmix_evolves, push_downmix_evolves,
    push_killmix_evolves, push_fade_evolves, config_evolves, update_channel_evolves,
    setup_evolves.
Qed.

(** ** The command array never overflows *)

(** Any sequence of builder calls from [mixing_init] keeps
    [0 <= mixing_count <= mixing_size = 128] and the 128-slot array. *)
Theorem mixing_capacity_invariant (MAX : Z) (M : math) (vs : VGMSTREAM) (calls : list mixing_call) :
  exists d, mixing_data_p (fold_left (run_call MAX M) calls (mixing_init vs)) = Some d
    /\ 0 <= mixing_count d <= mixing_size d
    /\ mixing_size d = VGMSTREAM_MAX_MIXING
    /\ length (mixing_chain d) = Z.to_nat VGMSTREAM_MAX_MIXING.
Proof.
  destruct (fold_evolves MAX M (mixing_init vs) calls) as (_ & H & _).
  destruct (H _ eq_refl) as (d & Hd & S1 & S2 & S3 & S4 & S5).
  cbn [mixing_init set_data mixing_data_p mixing_count mixing_size mixing_chain] in S2, S3, S4, S5.
  rewrite repeat_length in S3. exists d. split; [exact Hd|].
  unfold VGMSTREAM_MAX_MIXING in *. repeat split; lia.
Qed.

(** ** [mixing_info] on a configured stream *)

(** From [mixing_init] on a stream with at least one channel, after any
    builder calls [mixing_info] reports
    [input_channels = max(channels, output_channels)] and [output_channels],
    with [1 <= output_channels <= input_channels <= mixing_channels]: the
    caller's buffer, sized for [input_channels], never needs more lanes than
    [mixbuf] has. *)
Theorem mixing_info_bounds (MAX : Z) (M : math) (vs : VGMSTREAM) (calls : list mixing_call)
    (i0 o0 : Z) :
  1 <= channels vs ->
  exists d, mixing_data_p (fold_left (run_call MAX M) calls (mixing_init vs)) = Some d
    /\ mixing_info (fold_left (run_call MAX M) calls (mixing_init vs)) (Some i0) (Some o0)
       = (Some (Z.max (channels vs) (output_channels d)), Some (output_channels d))
    /\ 1 <= output_channels d <= Z.max (channels vs) (output_channels d)
    /\ Z.max (channels vs) (output_channels d) <= mixing_channels d.
Proof.
  intros Hch.
  destruct (fold_evolves MAX M (mixing_init vs) calls) as (Hc & H & _).
  destruct (H _ eq_refl) as (d & Hd & S1 & _).
  assert (Hinv : mixing_inv (fold_left (run_call MAX M) calls (mixing_init vs))).
  { apply fold_run_call_pres; auto using push_swap_inv, push_add_inv, push_volume_inv,
      push_limit_inv, push_upmix_inv, push_downmix_inv, push_killmix_inv, push_fade_inv,
      set_config_loop_count_inv, update_channel_inv, setup_inv.
    apply inv_set_data. simpl. lia. }
  specialize (Hinv d Hd). simpl in S1, Hc.
  exists d. split; [exact Hd|split].
  - unfold mixing_info. rewrite Hd, Hc. simpl.
    destruct (Z.gtb_spec (output_channels d) (channels vs)); f_equal; f_equal; lia.
  - lia.
Qed.

Lemma mixing_info_bounds_witness :
  1 <= channels quad_stream
  /\ exists d, mixing_data_p (fold_left (run_call 64 identity_math) [CallUpmix 0; CallDownmix 1]
                                        (mixing_init quad_stream)) = Some d
    /\ mixing_info (fold_left (run_call 64 identity_math) [CallUpmix 0; CallDownmix 1]
                              (mixing_init quad_stream)) (Some 0) (Some 0)
       = (Some (Z.max (channels quad_stream) (output_channels d)), Some (output_channels d))
    /\ 1 <= output_channels d <= Z.max (channels quad_stream) (output_channels d)
    /\ Z.max (channels quad_stream) (output_channels d) <= mixing_channels d.
Proof. split; [simpl; lia|]. apply mixing_info_bounds. simpl; lia. Defined.

(** ** [add_mixing]: store and read back *)

(** [add_mixing] accepts exactly when mixing data exists, mixing is not
    active and one more command fits. It then stores the command in slot
    [mixing_count], increments the count, and leaves every other slot as it
    was. A refused call changes nothing. *)
Theorem add_mixing_store_lookup (vs : VGMSTREAM) (d : mixing_data) (mix : mix_command_data) :
  mixing_data_p vs = Some d ->
  0 <= mixing_count d ->
  mixing_size d <= Z.of_nat (length (mixing_chain d)) ->
  (fst (add_mixing vs mix) = true <-> mixing_on d = false /\ mixing_count d + 1 <= mixing_size d)
  /\ (fst (add_mixing vs mix) = false -> snd (add_mixing vs mix) = vs)
  /\ (fst (add_mixing vs mix) = true ->
      exists d', mixing_data_p (snd (add_mixing vs mix)) = Some d'
        /\ mixing_count d' = mixing_count d + 1
        /\ aget mix_zero (mixing_chain d') (mixing_count d) = mix
        /\ (forall j, j <> mixing_count d ->
              aget mix_zero (mixing_chain d') j = aget mix_zero (mixing_chain d) j)).
Proof.
  intros Hd Hc Hl. unfold add_mixing. rewrite Hd.
  destruct (mixing_on d) eqn:Eo; simpl.
  - split; [|split].
    + split; [intros H; discriminate H|intros [H _]; discriminate H].
    + intros _; reflexivity.
    + intros H; discriminate H.
  - zcases; simpl.
    + split; [|split].
      * split; [intros H; discriminate H|intros [_ H]; lia].
      * intros _; reflexivity.
      * intros H; discriminate H.
    + split; [|split].
      * split; [intros _; split; [reflexivity|lia]|intros _; reflexivity].
      * intros H; discriminate H.
      * intros _. eexists. split; [reflexivity|]. simpl. split; [reflexivity|].
      rewrite (aget_aset mix_zero); [|lia]. rewrite Z.eqb_refl. split; [reflexivity|].
      intros j Hj. rewrite (aget_aset mix_zero); [|lia].
      destruct (Z.eqb_spec j (mixing_count d)); [lia|reflexivity].
Qed.

Lemma add_mixing_store_lookup_witness :
  let vs := mixing_init stereo_stream in
  let d := mkData 2 2 false 0 VGMSTREAM_MAX_MIXING
                  (repeat mix_zero (Z.to_nat VGMSTREAM_MAX_MIXING)) [] in
  let mix := mkMix MIX_ADD 0 1 (1 # 2) 0 0 Ascii.zero 0 0 0 0 in
  mixing_data_p vs = Some d /\ 0 <= mixing_count d
  /\ mixing_size d <= Z.of_nat (length (mixing_chain d))
  /\ (fst (add_mixing vs mix) = true <-> mixing_on d = false /\ mixing_count d + 1 <= mixing_size d)
  /\ (fst (add_mixing vs mix) = false -> snd (add_mixing vs mix) = vs)
  /\ (fst (add_mixing vs mix) = true ->
      exists d', mixing_data_p (snd (add_mixing vs mix)) = Some d'
        /\ mixing_count d' = mixing_count d + 1
        /\ aget mix_zero (mixing_chain d') (mixing_count d) = mix
        /\ (forall j, j <> mixing_count d ->
              aget mix_zero (mixing_chain d') j = aget mix_zero (mixing_chain d) j)).
Proof.
  intros vs d mix. split; [reflexivity|]. split; [simpl; lia|]. split; [vm_compute; discriminate|].
  apply add_mixing_store_lookup; [reflexivity|simpl; lia|vm_compute; discriminate].
Defined.

(** ** After activation the chain is frozen *)

Lemma add_mixing_when_on vs d mix :
  mixing_data_p vs = Some d -> mixing_on d = true -> add_mixing vs mix = (false, vs).
Proof. intros Hd Ho. unfold add_mixing. rewrite Hd, Ho. reflexivity. Qed.

Lemma pushes_when_on (MAX : Z) (vs : VGMSTREAM) (d : mixing_data) :
  mixing_data_p vs = Some d -> mixing_on d = true ->
  (forall a b, mixing_push_swap vs a b = vs)
  /\ (forall a b v, mixing_push_add vs a b v = vs)
  /\ (forall a v, mixing_push_volume vs a v = vs)
  /\ (forall a v, mixing_push_limit vs a v = vs)
  /\ (forall a, mixing_push_upmix MAX vs a = vs)
  /\ (forall a, mixing_push_downmix vs a = vs)
  /\ (forall a, mixing_push_killmix vs a = vs).
Proof.
  intros Hd Ho. pose proof (fun mix => add_mixing_when_on vs d mix Hd Ho) as Ha.
  repeat split; intros.
  - unfold mixing_push_swap. rewrite Hd. destruct (_ || _); [reflexivity|].
    destruct (_ || _); [reflexivity|]. rewrite Ha. reflexivity.
  - unfold mixing_push_add. rewrite Hd. destruct (Qeq_bool _ _); [reflexivity|].
    destruct (_ || _); [reflexivity|]. destruct (_ || _); [reflexivity|]. rewrite Ha. reflexivity.
  - unfold mixing_push_volume. rewrite Hd. destruct (Qeq_bool _ _); [reflexivity|].
    destruct (_ >=? _); [reflexivity|]. rewrite Ha. reflexivity.
  - unfold mixing_push_limit. rewrite Hd. destruct (Qlt_bool _ _); [reflexivity|].
    destruct (Qeq_bool _ _); [reflexivity|]. destruct (_ >=? _); [reflexivity|].
    rewrite Ha. reflexivity.
  - unfold mixing_push_upmix. rewrite Hd. destruct (_ <? 0); [reflexivity|].
    destruct (_ || _); [reflexivity|]. rewrite Ha. reflexivity.
  - unfold mixing_push_downmix. rewrite Hd. destruct (_ <? 0); [reflexivity|].
    destruct (_ || _); [reflexivity|]. rewrite Ha. reflexivity.
  - unfold mixing_push_killmix. rewrite Hd. destruct (_ <=? 0); [reflexivity|].
    destruct (_ >=? _); [reflexivity|]. rewrite Ha. reflexivity.
Qed.

(** Once [mixing_setup] has switched mixing on, every non-fade builder call
    (swap, add, volume, limit, upmix, downmix, killmix) leaves the stream
    unchanged: output and mixing channel counts included. *)
Theorem pushes_frozen_when_on (MAX : Z) (vs : VGMSTREAM) (d : mixing_data) :
  mixing_data_p vs = Some d -> mixing_on d = true ->
  (forall a b, mixing_push_swap vs a b = vs)
  /\ (forall a b v, mixing_push_add vs a b v = vs)
  /\ (forall a v, mixing_push_volume vs a v = vs)
  /\ (forall a v, mixing_push_limit vs a v = vs)
  /\ (forall a, mixing_push_upmix MAX vs a = vs)
  /\ (forall a, mixing_push_downmix vs a = vs)
  /\ (forall a, mixing_push_killmix vs a = vs).
Proof. apply pushes_when_on. Qed.

(** A stereo stream with a swap, activated. *)
Definition activated_swap_stream : VGMSTREAM :=
  mixing_setup (mixing_push_swap (mixing_init stereo_stream) 0 1) 4.

Lemma pushes_frozen_when_on_witness :
  exists d, mixing_data_p activated_swap_stream = Some d /\ mixing_on d = true
  /\ mixing_push_downmix activated_swap_stream 1 = activated_swap_stream.
Proof.
  eexists. split; [reflexivity|]. split; [reflexivity|].
  apply (pushes_frozen_when_on 64 activated_swap_stream
           (mkData 2 2 true 1 VGMSTREAM_MAX_MIXING
              (aset (repeat mix_zero (Z.to_nat VGMSTREAM_MAX_MIXING)) 0
                    (mkMix MIX_SWAP 0 1 0 0 0 Ascii.zero 0 0 0 0))
              (repeat 0%Q 8)));
    reflexivity.
Defined.

Lemma macro_track_loop_frozen vs d n mask :
  mixing_data_p vs = Some d -> mixing_on d = true -> macro_track_loop n mask vs = vs.
Proof.
  intros Hd Ho. induction n as [|n IH]; simpl; [reflexivity|].
  destruct (mask_bit mask (Z.of_nat n)); [exact IH|].
  destruct (pushes_when_on 0 vs d Hd Ho) as (_ & _ & _ & _ & _ & Hdown & _).
  rewrite Hdown. exact IH.
Qed.

(** The volume, track and layer macros are made of the calls above: once
    mixing is on they leave the stream unchanged too. *)
Theorem macros_frozen_when_on (MAX : Z) (M : math) (vs : VGMSTREAM) (d : mixing_data) :
  mixing_data_p vs = Some d -> mixing_on d = true ->
  (forall volume mask, mixing_macro_volume vs volume mask = vs)
  /\ (forall mask, mixing_macro_track vs mask = vs)
  /\ (forall max mask mode, mixing_macro_layer MAX M vs max mask mode = vs).
Proof.
  intros Hd Ho.
  destruct (pushes_when_on MAX vs d Hd Ho) as (_ & Hadd & Hvol & _ & Hup & _ & Hkill).
  repeat split; intros.
  - unfold mixing_macro_volume. rewrite Hd. destruct (mask =? 0); [apply Hvol|].
    apply (for_range_ind (fun v => v = vs)); [|reflexivity].
    intros j x ->. destruct (mask_bit mask j); [apply Hvol|reflexivity].
  - unfold mixing_macro_track. rewrite Hd. destruct (mask =? 0); [reflexivity|].
    apply (macro_track_loop_frozen vs d _ _ Hd Ho).
  - unfold mixing_macro_layer. rewrite Hd. destruct (_ || _); [reflexivity|].
    assert (H1 : for_range (Z.to_nat max) 0 (fun _ vs' => mixing_push_upmix MAX vs' 0) vs = vs).
    { apply (for_range_ind (fun v => v = vs)); [|reflexivity]. intros j x ->. apply Hup. }
    rewrite H1.
    match goal with
    | |- (let '(_, _) := for_range ?n ?i ?body ?a in _) = _ =>
        assert (H2 : fst (for_range n i body a) = vs);
        [ apply (for_range_ind (fun st => fst st = vs)); [|reflexivity];
          intros j [x c] Hx; simpl in Hx; subst x; simpl;
          destruct (negb (mask_bit _ j)); simpl; [reflexivity|apply Hadd]
        | destruct (for_range n i body a) as [v2 c2]; simpl in H2; subst v2; apply Hkill ]
    end.
Qed.

Lemma macros_frozen_when_on_witness :
  mixing_macro_layer 64 identity_math activated_swap_stream 1 0 "e"%char = activated_swap_stream.
Proof.
  apply (macros_frozen_when_on 64 identity_math activated_swap_stream
           (mkData 2 2 true 1 VGMSTREAM_MAX_MIXING
              (aset (repeat mix_zero (Z.to_nat VGMSTREAM_MAX_MIXING)) 0
                    (mkMix MIX_SWAP 0 1 0 0 0 Ascii.zero 0 0 0 0))
              (repeat 0%Q 8)));
    reflexivity.
Defined.

(** ** [mixing_setup] *)

(** [mixing_setup] with [max_sample_count <= 0] is a query that changes
    nothing. With a positive count it switches mixing on. It keeps the
    channels, the count and the chain, and sizes [mixbuf] to
    [max_sample_count * mixing_channels] floats, keeping the old contents
    ([realloc]). *)
Theorem mixing_setup_spec (vs : VGMSTREAM) (d : mixing_data) (max_sample_count : Z) :
  mixing_data_p vs = Some d ->
  (max_sample_count <= 0 -> mixing_setup vs max_sample_count = vs)
  /\ (0 < max_sample_count -> 0 <= mixing_channels d ->
      exists d', mixing_data_p (mixing_setup vs max_sample_count) = Some d'
        /\ mixing_on d' = true
        /\ mixing_channels d' = mixing_channels d
        /\ output_channels d' = output_channels d
        /\ mixing_count d' = mixing_count d
        /\ mixing_chain d' = mixing_chain d
        /\ Z.of_nat (length (mixbuf d')) = max_sample_count * mixing_channels d
        /\ (forall i, (i < length (mixbuf d))%nat -> (i < length (mixbuf d'))%nat ->
              nth i (mixbuf d') 0%Q = nth i (mixbuf d) 0%Q)).
Proof.
  intros Hd. unfold mixing_setup. rewrite Hd. split.
  - intros Hn. destruct (Z.leb_spec0 max_sample_count 0); [reflexivity|lia].
  - intros Hn Hm. destruct (Z.leb_spec0 max_sample_count 0); [lia|].
    eexists. split; [reflexivity|]. simpl.
    repeat split; auto.
    + rewrite length_app, length_firstn, repeat_length. lia.
    + intros i Hi Hi'. rewrite length_app, length_firstn, repeat_length in Hi'.
      rewrite app_nth1; [|rewrite length_firstn; lia].
      rewrite nth_firstn. replace (i <? Z.to_nat (max_sample_count * mixing_channels d))%nat
        with true; [reflexivity|symmetry; apply Nat.ltb_lt; lia].
Qed.

Lemma mixing_setup_spec_witness :
  let d := mkData 2 2 false 0 VGMSTREAM_MAX_MIXING
                  (repeat mix_zero (Z.to_nat VGMSTREAM_MAX_MIXING)) [] in
  mixing_data_p (mixing_init stereo_stream) = Some d
  /\ 0 < 16 /\ 0 <= mixing_channels d
  /\ exists d', mixing_data_p (mixing_setup (mixing_init stereo_stream) 16) = Some d'
        /\ mixing_on d' = true
        /\ mixing_channels d' = mixing_channels d
        /\ output_channels d' = output_channels d
        /\ mixing_count d' = mixing_count d
        /\ mixing_chain d' = mixing_chain d
        /\ Z.of_nat (length (mixbuf d')) = 16 * mixing_channels d
        /\ (forall i, (i < length (mixbuf d))%nat -> (i < length (mixbuf d'))%nat ->
              nth i (mixbuf d') 0%Q = nth i (mixbuf d) 0%Q).
Proof.
  intros d. split; [reflexivity|]. split; [lia|]. split; [simpl; lia|].
  apply (mixing_setup_spec (mixing_init stereo_stream) d 16); [reflexivity|lia|simpl; lia].
Defined.

(** ** Only [mixing_setup] switches mixing on *)

Definition on_is (b : bool) (v : VGMSTREAM) : Prop :=
  forall d, mixing_data_p v = Some d -> mixing_on d = b.

Lemma on_is_set_data b v d : mixing_on d = b -> on_is b (set_data v d).
Proof. intros H d' Hd'. injection Hd' as <-. exact H. Qed.

Lemma add_mixing_on_is b vs mix : on_is b vs -> on_is b (snd (add_mixing vs mix)).
Proof.
  intros H. destruct (add_mixing_cases vs mix) as [Hr|(d & Hd & _ & _ & Hr)];
    rewrite Hr; simpl; [exact H|]. apply on_is_set_data. simpl. apply H, Hd.
Qed.

Lemma add_then_on_is b vs mix (k : bool -> VGMSTREAM -> VGMSTREAM) :
  on_is b vs -> (forall ok v, on_is b v -> on_is b (k ok v)) ->
  on_is b (let '(ok, vs1) := add_mixing vs mix in k ok vs1).
Proof.
  intros H Hk. pose proof (add_mixing_on_is b vs mix H) as He.
  destruct (add_mixing vs mix) as [ok vs1]. apply Hk, He.
Qed.

Lemma with_data_on_is b v upd :
  on_is b v -> (forall d, mixing_on (upd d) = mixing_on d) -> on_is b (with_data v upd).
Proof.
  intros H Hu. unfold with_data. destruct (mixing_data_p v) as [d|] eqn:E; [|exact H].
  apply on_is_set_data. rewrite Hu. apply H, E.
Qed.

Lemma push_on_is (MAX : Z) (b : bool) :
  (forall vs a c, on_is b vs -> on_is b (mixing_push_swap vs a c))
  /\ (forall vs a c v, on_is b vs -> on_is b (mixing_push_add vs a c v))
  /\ (forall vs a v, on_is b vs -> on_is b (mixing_push_volume vs a v))
  /\ (forall vs a v, on_is b vs -> on_is b (mixing_push_limit vs a v))
  /\ (forall vs a, on_is b vs -> on_is b (mixing_push_upmix MAX vs a))
  /\ (forall vs a, on_is b vs -> on_is b (mixing_push_downmix vs a))
  /\ (forall vs a, on_is b vs -> on_is b (mixing_push_killmix vs a))
  /\ (forall vs a v1 v2 sh t1 t2 t3 t4,
        on_is b vs -> on_is b (mixing_push_fade vs a v1 v2 sh t1 t2 t3 t4))
  /\ (forall vs n, on_is b vs -> on_is b (set_config_loop_count vs n))
  /\ (forall vs, on_is b vs -> on_is b (mixing_update_channel vs)).
Proof.
  repeat split; intros.
  - unfold mixing_push_swap. destruct (_ || _); [assumption|].
    destruct (mixing_data_p vs); [|assumption].
    destruct (_ || _); [assumption|apply add_mixing_on_is; assumption].
  - unfold mixing_push_add. destruct (mixing_data_p vs); [|assumption].
    destruct (Qeq_bool _ _); [assumption|]. destruct (_ || _); [assumption|].
    destruct (_ || _); [assumption|apply add_mixing_on_is; assumption].
  - unfold mixing_push_volume. destruct (Qeq_bool _ _); [assumption|].
    destruct (mixing_data_p vs); [|assumption].
    destruct (_ >=? _); [assumption|apply add_mixing_on_is; assumption].
  - unfold mixing_push_limit. destruct (Qlt_bool _ _); [assumption|].
    destruct (Qeq_bool _ _); [assumption|]. destruct (mixing_data_p vs); [|assumption].
    destruct (_ >=? _); [assumption|apply add_mixing_on_is; assumption].
  - unfold mixing_push_upmix. destruct (a <? 0); [assumption|].
    destruct (mixing_data_p vs); [|assumption]. destruct (_ || _); [assumption|].
    apply add_then_on_is; [assumption|]. intros [|] v Hv; [|exact Hv].
    apply with_data_on_is; [exact Hv|]. intros d. simpl.
    destruct (_ <? _); reflexivity.
  - unfold mixing_push_downmix. destruct (a <? 0); [assumption|].
    destruct (mixing_data_p vs); [|assumption]. destruct (_ || _); [assumption|].
    apply add_then_on_is; [assumption|]. intros [|] v Hv; [|exact Hv].
    apply with_data_on_is; [exact Hv|reflexivity].
  - unfold mixing_push_killmix. destruct (a <=? 0); [assumption|].
    destruct (mixing_data_p vs); [|assumption]. destruct (_ >=? _); [assumption|].
    apply add_then_on_is; [assumption|]. intros [|] v Hv; [|exact Hv].
    apply with_data_on_is; [exact Hv|reflexivity].
  - unfold mixing_push_fade. destruct (mixing_data_p vs) as [d|] eqn:Ed; [|assumption].
    destruct (_ >=? _); [assumption|].
    destruct ((t1 >? t2) || (t2 >? t3) || ((t4 >=? 0) && (t3 >? t4))); [assumption|].
    destruct ((t2 <? 0) || (t3 <? 0)); [assumption|].
    destruct (get_last_fade d a) as [i|]; [|apply add_mixing_on_is; assumption].
    destruct (fade_open_ends _ _); [|apply add_mixing_on_is; assumption].
    destruct (fade_stitch _ _) as [prev' mix'].
    apply add_mixing_on_is, on_is_set_data. simpl. auto.
  - assumption.
  - unfold mixing_update_channel. destruct (mixing_data_p vs) as [d|] eqn:Ed; [|assumption].
    apply on_is_set_data. simpl. auto.
Qed.

Definition not_setup (c : mixing_call) : bool :=
  match c with CallSetup _ => false | _ => true end.

Lemma run_call_on_is MAX M b vs c :
  not_setup c = true -> on_is b vs -> on_is b (run_call MAX M vs c).
Proof.
  intros Hc H.
  destruct (push_on_is MAX b) as (Psw & Pad & Pvo & Pli & Pup & Pdo & Pki & Pfa & Pco & Pu).
  destruct c; simpl in Hc |- *; try discriminate; auto.
  - apply macro_volume_pres; auto.
  - apply macro_track_pres; auto.
  - apply macro_layer_pres; auto.
  - apply macro_crosstrack_pres; auto.
  - apply macro_crosslayer_pres; auto.
Qed.

Lemma fold_on_is MAX M b (calls : list mixing_call) vs :
  forallb not_setup calls = true -> on_is b vs -> on_is b (fold_left (run_call MAX M) calls vs).
Proof.
  revert vs. induction calls as [|c calls IH]; intros v Hc Hv; simpl; [exact Hv|].
  simpl in Hc. apply andb_prop in Hc as [Hc1 Hc2].
  apply IH; [exact Hc2|apply run_call_on_is; assumption].
Qed.

(** No builder call or macro other than [mixing_setup] changes [mixing_on]:
    a stream is activated only by [mixing_setup], and an active stream stays
    active. *)
Theorem only_setup_changes_mixing_on (MAX : Z) (M : math) (vs : VGMSTREAM)
    (calls : list mixing_call) (d d' : mixing_data) :
  forallb not_setup calls = true ->
  mixing_data_p vs = Some d ->
  mixing_data_p (fold_left (run_call MAX M) calls vs) = Some d' ->
  mixing_on d' = mixing_on d.
Proof.
  intros Hc Hd Hd'. apply (fold_on_is MAX M (mixing_on d) calls vs Hc); [|exact Hd'].
  intros d0 Hd0. congruence.
Qed.

Lemma only_setup_changes_mixing_on_witness :
  option_map mixing_on
    (mixing_data_p (fold_left (run_call 64 identity_math)
                      [CallUpmix 0; CallMacroLayer 1 0 "e"%char; CallUpdateChannel]
                      (mixing_init stereo_stream)))
  = Some false.
Proof.
  destruct (mixing_data_p (fold_left (run_call 64 identity_math)
                      [CallUpmix 0; CallMacroLayer 1 0 "e"%char; CallUpdateChannel]
                      (mixing_init stereo_stream))) as [d'|] eqn:E;
    [|vm_compute in E; discriminate E].
  simpl. f_equal.
  apply (only_setup_changes_mixing_on 64 identity_math (mixing_init stereo_stream)
           [CallUpmix 0; CallMacroLayer 1 0 "e"%char; CallUpdateChannel]
           (mkData 2 2 false 0 VGMSTREAM_MAX_MIXING
                   (repeat mix_zero (Z.to_nat VGMSTREAM_MAX_MIXING)) []) d');
    [reflexivity|reflexivity|exact E].
Defined.

(** ** [get_last_fade] finds the last fade of a channel selector *)

Lemma mix_command_t_eqb_true a b : mix_command_t_eqb a b = true <-> a = b.
Proof. destruct a, b; simpl; split; intros H; congruence. Qed.

Definition fade_on (target : Z) (mix : mix_command_data) : Prop :=
  command mix = MIX_FADE /\ ch_dst mix = target.

Lemma get_last_fade_from_spec (n : nat) (chain : list mix_command_data) (target : Z) :
  match get_last_fade_from n chain target with
  | Some i => (i < n)%nat /\ fade_on target (nth i chain mix_zero)
              /\ forall j, (i < j < n)%nat -> ~ fade_on target (nth j chain mix_zero)
  | None => forall j, (j < n)%nat -> ~ fade_on target (nth j chain mix_zero)
  end.
Proof.
  induction n as [|n IH]; simpl; [intros j Hj; lia|].
  destruct (mix_command_t_eqb (command (nth n chain mix_zero)) MIX_FADE) eqn:Ef; simpl.
  - destruct (Z.eqb_spec (ch_dst (nth n chain mix_zero)) target) as [Ht|Ht].
    + apply mix_command_t_eqb_true in Ef. split; [lia|split; [split; assumption|]].
      intros j Hj. lia.
    + destruct (get_last_fade_from n chain target) as [i|].
      * destruct IH as (Hi & Hf & Hl). split; [lia|split; [exact Hf|]].
        intros j Hj [Hj1 Hj2]. destruct (Nat.eq_dec j n) as [->|Hne]; [congruence|].
        apply (Hl j); [lia|split; assumption].
      * intros j Hj [Hj1 Hj2]. destruct (Nat.eq_dec j n) as [->|Hne]; [congruence|].
        apply (IH j); [lia|split; assumption].
  - assert (Hnf : ~ fade_on target (nth n chain mix_zero)).
    { intros [Hc _]. rewrite Hc in Ef. discriminate Ef. }
    destruct (get_last_fade_from n chain target) as [i|].
    + destruct IH as (Hi & Hf & Hl). split; [lia|split; [exact Hf|]].
      intros j Hj. destruct (Nat.eq_dec j n) as [->|Hne]; [exact Hnf|]. apply Hl. lia.
    + intros j Hj. destruct (Nat.eq_dec j n) as [->|Hne]; [exact Hnf|]. apply IH. lia.
Qed.

(** [get_last_fade] returns the slot of the last [MIX_FADE] command with
    this [ch_dst] among the first [mixing_count] slots: no later slot before
    [mixing_count] holds one. [NULL] means that no slot before
    [mixing_count] holds one. *)
Theorem get_last_fade_spec (data : mixing_data) (target_channel : Z) :
  match get_last_fade data target_channel with
  | Some i =>
      (i < Z.to_nat (mixing_count data))%nat
      /\ fade_on target_channel (nth i (mixing_chain data) mix_zero)
      /\ forall j, (i < j < Z.to_nat (mixing_count data))%nat ->
           ~ fade_on target_channel (nth j (mixing_chain data) mix_zero)
  | None =>
      forall j, (j < Z.to_nat (mixing_count data))%nat ->
        ~ fade_on target_channel (nth j (mixing_chain data) mix_zero)
  end.
Proof. apply get_last_fade_from_spec. Qed.

(** ** Exact acceptance of upmix and downmix *)

(** [mixing_push_upmix] adds its command exactly when mixing is off, the
    array has room, [0 <= ch_dst <= output_channels] and one more channel
    stays within [VGMSTREAM_MAX_CHANNELS]. It then adds one output channel
    and raises [mixing_channels] to at least the new count. Otherwise the
    stream is unchanged. *)
Theorem mixing_push_upmix_spec (MAX : Z) (vs : VGMSTREAM) (d : mixing_data) (ch_dst : Z) :
  mixing_data_p vs = Some d ->
  (mixing_on d = false /\ mixing_count d + 1 <= mixing_size d
   /\ 0 <= ch_dst <= output_channels d /\ output_channels d + 1 <= MAX
   /\ exists d', mixing_data_p (mixing_push_upmix MAX vs ch_dst) = Some d'
        /\ output_channels d' = output_channels d + 1
        /\ mixing_channels d' = Z.max (mixing_channels d) (output_channels d + 1)
        /\ mixing_count d' = mixing_count d + 1
        /\ mixing_chain d' = aset (mixing_chain d) (mixing_count d)
                                  (mkMix MIX_UPMIX ch_dst 0 0 0 0 Ascii.zero 0 0 0 0))
  \/ (~ (mixing_on d = false /\ mixing_count d + 1 <= mixing_size d
         /\ 0 <= ch_dst <= output_channels d /\ output_channels d + 1 <= MAX)
      /\ mixing_push_upmix MAX vs ch_dst = vs).
Proof.
  intros Hd. unfold mixing_push_upmix. rewrite Hd.
  destruct (Z.ltb_spec0 ch_dst 0).
  { right. split; [intros (_ & _ & H & _); lia|reflexivity]. }
  destruct ((ch_dst >? output_channels d) || (output_channels d + 1 >? MAX)) eqn:Eg.
  { right. split; [|reflexivity]. intros (_ & _ & H1 & H2). revert Eg. zcases; simpl; lia || discriminate. }
  assert (Hg : ch_dst <= output_channels d /\ output_channels d + 1 <= MAX)
    by (revert Eg; zcases; simpl; lia || discriminate).
  unfold add_mixing. rewrite Hd. destruct (mixing_on d) eqn:Eo.
  { right. split; [intros (H & _); discriminate H|reflexivity]. }
  destruct (Z.gtb_spec (mixing_count d + 1) (mixing_size d)) as [Hs|Hs].
  { right. split; [intros (_ & Hx & _); lia|reflexivity]. }
  left. repeat (split; [lia || reflexivity|]). simpl.
  eexists. split; [reflexivity|]. simpl.
  destruct (Z.ltb_spec0 (mixing_channels d) (output_channels d + 1)); simpl;
    repeat split; lia.
Qed.

Lemma mixing_push_upmix_spec_witness :
  let d := mkData 2 2 false 0 VGMSTREAM_MAX_MIXING
                  (repeat mix_zero (Z.to_nat VGMSTREAM_MAX_MIXING)) [] in
  mixing_data_p (mixing_init stereo_stream) = Some d
  /\ ((mixing_on d = false /\ mixing_count d + 1 <= mixing_size d
       /\ 0 <= 1 <= output_channels d /\ output_channels d + 1 <= 8
       /\ exists d', mixing_data_p (mixing_push_upmix 8 (mixing_init stereo_stream) 1) = Some d'
            /\ output_channels d' = output_channels d + 1
            /\ mixing_channels d' = Z.max (mixing_channels d) (output_channels d + 1)
            /\ mixing_count d' = mixing_count d + 1
            /\ mixing_chain d' = aset (mixing_chain d) (mixing_count d)
                                      (mkMix MIX_UPMIX 1 0 0 0 0 Ascii.zero 0 0 0 0))
      \/ (~ (mixing_on d = false /\ mixing_count d + 1 <= mixing_size d
             /\ 0 <= 1 <= output_channels d /\ output_channels d + 1 <= 8)
          /\ mixing_push_upmix 8 (mixing_init stereo_stream) 1 = mixing_init stereo_stream)).
Proof.
  intros d. split; [reflexivity|].
  apply (mixing_push_upmix_spec 8 (mixing_init stereo_stream) d 1). reflexivity.
Defined.

(** [mixing_push_downmix] adds its command exactly when mixing is off, the
    array has room, [0 <= ch_dst < output_channels] and at least two output
    channels exist. It then removes one output channel and keeps
    [mixing_channels]. Otherwise the stream is unchanged. *)
Theorem mixing_push_downmix_spec (vs : VGMSTREAM) (d : mixing_data) (ch_dst : Z) :
  mixing_data_p vs = Some d ->
  (mixing_on d = false /\ mixing_count d + 1 <= mixing_size d
   /\ 0 <= ch_dst < output_channels d /\ 2 <= output_channels d
   /\ exists d', mixing_data_p (mixing_push_downmix vs ch_dst) = Some d'
        /\ output_channels d' = output_channels d - 1
        /\ mixing_channels d' = mixing_channels d
        /\ mixing_count d' = mixing_count d + 1
        /\ mixing_chain d' = aset (mixing_chain d) (mixing_count d)
                                  (mkMix MIX_DOWNMIX ch_dst 0 0 0 0 Ascii.zero 0 0 0 0))
  \/ (~ (mixing_on d = false /\ mixing_count d + 1 <= mixing_size d
         /\ 0 <= ch_dst < output_channels d /\ 2 <= output_channels d)
      /\ mixing_push_downmix vs ch_dst = vs).
Proof.
  intros Hd. unfold mixing_push_downmix. rewrite Hd.
  destruct (Z.ltb_spec0 ch_dst 0).
  { right. split; [intros (_ & _ & H & _); lia|reflexivity]. }
  destruct ((ch_dst >=? output_channels d) || (output_channels d - 1 <? 1)) eqn:Eg.
  { right. split; [|reflexivity]. intros (_ & _ & H1 & H2). revert Eg. zcases; simpl; lia || discriminate. }
  assert (Hg : ch_dst < output_channels d /\ 2 <= output_channels d)
    by (revert Eg; zcases; simpl; lia || discriminate).
  unfold add_mixing. rewrite Hd. destruct (mixing_on d) eqn:Eo.
  { right. split; [intros (H & _); discriminate H|reflexivity]. }
  destruct (Z.gtb_spec (mixing_count d + 1) (mixing_size d)) as [Hs|Hs].
  { right. split; [intros (_ & Hx & _); lia|reflexivity]. }
  left. repeat (split; [lia || reflexivity|]). simpl.
  eexists. split; [reflexivity|]. simpl. repeat split; lia.
Qed.

Lemma mixing_push_downmix_spec_witness :
  let d := mkData 2 2 false 0 VGMSTREAM_MAX_MIXING
                  (repeat mix_zero (Z.to_nat VGMSTREAM_MAX_MIXING)) [] in
  mixing_data_p (mixing_init stereo_stream) = Some d
  /\ ((mixing_on d = false /\ mixing_count d + 1 <= mixing_size d
       /\ 0 <= 0 < output_channels d /\ 2 <= output_channels d
       /\ exists d', mixing_data_p (mixing_push_downmix (mixing_init stereo_stream) 0) = Some d'
            /\ output_channels d' = output_channels d - 1
            /\ mixing_channels d' = mixing_channels d
            /\ mixing_count d' = mixing_count d + 1
            /\ mixing_chain d' = aset (mixing_chain d) (mixing_count d)
                                      (mkMix MIX_DOWNMIX 0 0 0 0 0 Ascii.zero 0 0 0 0))
      \/ (~ (mixing_on d = false /\ mixing_count d + 1 <= mixing_size d
             /\ 0 <= 0 < output_channels d /\ 2 <= output_channels d)
          /\ mixing_push_downmix (mixing_init stereo_stream) 0 = mixing_init stereo_stream)).
Proof.
  intros d. split; [reflexivity|].
  apply (mixing_push_downmix_spec (mixing_init stereo_stream) d 0). reflexivity.
Defined.

(** ** Lane moves of [MIX_UPMIX] and [MIX_DOWNMIX] in a sample step *)

Lemma fget_aset (b : list Q) (i j : Z) (x : Q) :
  0 <= i < Z.of_nat (length b) -> fget (aset b i x) j = if j =? i then x else fget b j.
Proof. intros H. unfold fget. apply aget_aset, H. Qed.

(** The [for (ch = top; ...; ch--) stpbuf[ch] = stpbuf[ch-1]] loop. *)
Lemma upmix_loop_spec (top : Z) (m : nat) (i : Z) (b : list Q) :
  top - i < Z.of_nat (length b) -> 0 <= top - i - Z.of_nat m + 1 ->
  length (for_range m i (fun k b => aset b (top - k) (fget b (top - k - 1))) b)
    = length b
  /\ forall ch,
      fget (for_range m i (fun k b => aset b (top - k) (fget b (top - k - 1))) b) ch
      = if (top - i - Z.of_nat m <? ch) && (ch <=? top - i) then fget b (ch - 1) else fget b ch.
Proof.
  revert i b. induction m as [|m IH]; intros i b Hl Hm; simpl.
  - split; [reflexivity|]. intros ch. zcases; simpl; auto; lia.
  - destruct (IH (i + 1) (aset b (top - i) (fget b (top - i - 1))));
      [rewrite length_aset; lia|lia|].
    split; [rewrite H, length_aset; reflexivity|].
    intros ch. rewrite H0.
    rewrite !fget_aset by lia.
    zcases; simpl; try reflexivity; try lia; subst; f_equal; lia.
Qed.

(** The [for (ch = i; ...; ch++) stpbuf[ch] = stpbuf[ch+1]] loop. *)
Lemma downmix_loop_spec (m : nat) (i : Z) (b : list Q) :
  0 <= i -> i + Z.of_nat m <= Z.of_nat (length b) ->
  length (for_range m i (fun ch b => aset b ch (fget b (ch + 1))) b) = length b
  /\ forall ch,
      fget (for_range m i (fun ch b => aset b ch (fget b (ch + 1))) b) ch
      = if (i <=? ch) && (ch <? i + Z.of_nat m) then fget b (ch + 1) else fget b ch.
Proof.
  revert i b. induction m as [|m IH]; intros i b Hi Hl; simpl.
  - split; [reflexivity|]. intros ch. zcases; simpl; auto; lia.
  - destruct (IH (i + 1) (aset b i (fget b (i + 1))));
      [lia|rewrite length_aset; lia|].
    split; [rewrite H, length_aset; reflexivity|].
    intros ch. rewrite H0.
    rewrite !fget_aset by lia.
    zcases; simpl; try reflexivity; try lia; subst; f_equal; lia.
Qed.

Definition upmix_cmd (ch_dst : Z) : mix_command_data :=
  mkMix MIX_UPMIX ch_dst 0 0 0 0 Ascii.zero 0 0 0 0.

Definition downmix_cmd (ch_dst : Z) : mix_command_data :=
  mkMix MIX_DOWNMIX ch_dst 0 0 0 0 Ascii.zero 0 0 0 0.

Lemma apply_upmix_lanes (M : math) (pos n d : Z) (b : list Q) (mix : mix_command_data) :
  command mix = MIX_UPMIX -> ch_dst mix = d ->
  0 <= d <= n -> n < Z.of_nat (length b) ->
  fst (apply_mix M pos (n, b) mix) = n + 1
  /\ length (snd (apply_mix M pos (n, b) mix)) = length b
  /\ forall ch, fget (snd (apply_mix M pos (n, b) mix)) ch =
       if ch <? d then fget b ch
       else if ch =? d then 0%Q
       else if ch <=? n then fget b (ch - 1)
       else fget b ch.
Proof.
  intros Hc Hd Hdn Hl. unfold apply_mix. rewrite Hc, Hd. simpl.
  destruct (upmix_loop_spec (n + 1 - 1) (Z.to_nat (n + 1 - 1 - d)) 0 b) as [L F]; [lia|lia|].
  split; [reflexivity|]. split; [rewrite length_aset; exact L|].
  intros ch. rewrite fget_aset by lia. rewrite F.
  zcases; simpl; try reflexivity; lia.
Qed.

Lemma apply_downmix_lanes (M : math) (pos n d : Z) (b : list Q) (mix : mix_command_data) :
  command mix = MIX_DOWNMIX -> ch_dst mix = d ->
  0 <= d < n -> n - 1 <= Z.of_nat (length b) ->
  fst (apply_mix M pos (n, b) mix) = n - 1
  /\ length (snd (apply_mix M pos (n, b) mix)) = length b
  /\ forall ch, fget (snd (apply_mix M pos (n, b) mix)) ch =
       if (d <=? ch) && (ch <? n - 1) then fget b (ch + 1) else fget b ch.
Proof.
  intros Hc Hd Hd0 Hl. unfold apply_mix. rewrite Hc, Hd. simpl.
  destruct (downmix_loop_spec (Z.to_nat (n - 1 - d)) d b) as [L F]; [lia|lia|].
  split; [reflexivity|]. split; [exact L|].
  intros ch. rewrite F. zcases; simpl; reflexivity || lia.
Qed.

(** In the sample step of [mix_vgmstream], [MIX_UPMIX] at [ch_dst] (with
    [0 <= ch_dst <= step_channels] and room for one more lane) adds one
    lane. It inserts silence at [ch_dst], moves lanes [ch_dst ..
    step_channels-1] up by one and leaves the lanes below [ch_dst] as they
    were. *)
Theorem upmix_step_lanes (M : math) (current_subpos step_channels ch_dst : Z) (stpbuf : list Q) :
  0 <= ch_dst <= step_channels -> step_channels < Z.of_nat (length stpbuf) ->
  fst (apply_mix M current_subpos (step_channels, stpbuf) (upmix_cmd ch_dst)) = step_channels + 1
  /\ forall ch, 0 <= ch <= step_channels ->
       fget (snd (apply_mix M current_subpos (step_channels, stpbuf) (upmix_cmd ch_dst))) ch =
       if ch <? ch_dst then fget stpbuf ch
       else if ch =? ch_dst then 0%Q
       else fget stpbuf (ch - 1).
Proof.
  intros Hd Hl.
  destruct (apply_upmix_lanes M current_subpos step_channels ch_dst stpbuf (upmix_cmd ch_dst))
    as (H1 & _ & H3); auto.
  split; [exact H1|]. intros ch Hch. rewrite H3. zcases; simpl; reflexivity || lia.
Qed.

Lemma upmix_step_lanes_witness :
  (0 <= 1 <= 2 /\ 2 < Z.of_nat (length [10; 20; 0]%Q))
  /\ fst (apply_mix identity_math 0 (2, [10; 20; 0]%Q) (upmix_cmd 1)) = 2 + 1
  /\ forall ch, 0 <= ch <= 2 ->
       fget (snd (apply_mix identity_math 0 (2, [10; 20; 0]%Q) (upmix_cmd 1))) ch =
       if ch <? 1 then fget [10; 20; 0]%Q ch
       else if ch =? 1 then 0%Q
       else fget [10; 20; 0]%Q (ch - 1).
Proof. split; [simpl; lia|]. apply upmix_step_lanes; simpl; lia. Defined.

(** [MIX_DOWNMIX] at [ch_dst] removes one lane: lanes [ch_dst+1 ..
    step_channels-1] move down by one, and the lanes below [ch_dst] are as
    they were. *)
Theorem downmix_step_lanes (M : math) (current_subpos step_channels ch_dst : Z) (stpbuf : list Q) :
  0 <= ch_dst < step_channels -> step_channels <= Z.of_nat (length stpbuf) ->
  fst (apply_mix M current_subpos (step_channels, stpbuf) (downmix_cmd ch_dst)) = step_channels - 1
  /\ forall ch, 0 <= ch < step_channels - 1 ->
       fget (snd (apply_mix M current_subpos (step_channels, stpbuf) (downmix_cmd ch_dst))) ch =
       if ch <? ch_dst then fget stpbuf ch else fget stpbuf (ch + 1).
Proof.
  intros Hd Hl.
  destruct (apply_downmix_lanes M current_subpos step_channels ch_dst stpbuf (downmix_cmd ch_dst))
    as (H1 & _ & H3); [reflexivity|reflexivity|lia|lia|].
  split; [exact H1|]. intros ch Hch. rewrite H3. zcases; simpl; reflexivity || lia.
Qed.

Lemma downmix_step_lanes_witness :
  (0 <= 0 < 3 /\ 3 <= Z.of_nat (length [10; 20; 30]%Q))
  /\ fst (apply_mix identity_math 0 (3, [10; 20; 30]%Q) (downmix_cmd 0)) = 3 - 1
  /\ forall ch, 0 <= ch < 3 - 1 ->
       fget (snd (apply_mix identity_math 0 (3, [10; 20; 30]%Q) (downmix_cmd 0))) ch =
       if ch <? 0 then fget [10; 20; 30]%Q ch else fget [10; 20; 30]%Q (ch + 1).
Proof. split; [simpl; lia|]. apply downmix_step_lanes; simpl; lia. Defined.

(** An upmix followed by a downmix at the same channel gives back the lane
    count and the contents of every lane [0 .. step_channels-1]. *)
Theorem upmix_downmix_round_trip (M : math) (current_subpos step_channels ch_dst : Z)
    (stpbuf : list Q) :
  0 <= ch_dst <= step_channels -> step_channels < Z.of_nat (length stpbuf) ->
  let st := apply_mix M current_subpos
              (apply_mix M current_subpos (step_channels, stpbuf) (upmix_cmd ch_dst))
              (downmix_cmd ch_dst) in
  fst st = step_channels
  /\ forall ch, 0 <= ch < step_channels -> fget (snd st) ch = fget stpbuf ch.
Proof.
  intros Hd Hl.
  destruct (apply_upmix_lanes M current_subpos step_channels ch_dst stpbuf (upmix_cmd ch_dst))
    as (U1 & U2 & U3); auto.
  destruct (apply_mix M current_subpos (step_channels, stpbuf) (upmix_cmd ch_dst)) as [n1 b1].
  simpl in U1, U2, U3. subst n1.
  destruct (apply_downmix_lanes M current_subpos (step_channels + 1) ch_dst b1 (downmix_cmd ch_dst))
    as (D1 & _ & D3); [reflexivity|reflexivity|lia|rewrite U2; lia|].
  cbv zeta. split; [rewrite D1; lia|].
  intros ch Hch. rewrite D3, !U3. zcases; simpl; try reflexivity; try lia; f_equal; lia.
Qed.

Lemma upmix_downmix_round_trip_witness :
  (0 <= 1 <= 2 /\ 2 < Z.of_nat (length [10; 20; 0]%Q))
  /\ fst (apply_mix identity_math 0
            (apply_mix identity_math 0 (2, [10; 20; 0]%Q) (upmix_cmd 1)) (downmix_cmd 1)) = 2
  /\ forall ch, 0 <= ch < 2 ->
       fget (snd (apply_mix identity_math 0
                    (apply_mix identity_math 0 (2, [10; 20; 0]%Q) (upmix_cmd 1))
                    (downmix_cmd 1))) ch = fget [10; 20; 0]%Q ch.
Proof. split; [simpl; lia|]. apply upmix_downmix_round_trip; simpl; lia. Defined.

(** ** What [mix_vgmstream] writes to [outbuf] *)

Lemma aget_aset_other {A} (d : A) (l : list A) (i j : Z) (x : A) :
  j <> i -> aget d (aset l i x) j = aget d l j.
Proof.
  intros Hne. unfold aget, aset. destruct (Z.ltb_spec0 i 0); [reflexivity|].
  destruct (Z.ltb_spec0 j 0); [reflexivity|].
  rewrite nth_replace_nth. replace (Nat.eqb (Z.to_nat j) (Z.to_nat i)) with false; [reflexivity|].
  symmetry. apply Nat.eqb_neq. lia.
Qed.

Lemma aget_aset_either {A} (d : A) (l : list A) (i j : Z) (x : A) :
  aget d (aset l i x) j = x \/ aget d (aset l i x) j = aget d l j.
Proof.
  destruct (Z.eq_dec j i) as [->|Hne]; [|right; apply aget_aset_other, Hne].
  destruct (Z.ltb_spec0 i 0) as [Hn|Hn].
  { right. unfold aset. replace (i <? 0) with true by (symmetry; apply Z.ltb_lt; exact Hn).
    reflexivity. }
  destruct (Nat.ltb_spec (Z.to_nat i) (length l)).
  - left. rewrite aget_aset; [rewrite Z.eqb_refl; reflexivity|lia].
  - right. unfold aget, aset. destruct (Z.ltb_spec0 i 0); [lia|].
    rewrite nth_replace_nth. replace (Nat.ltb (Z.to_nat i) (length l)) with false;
      [rewrite andb_false_r; reflexivity|symmetry; apply Nat.ltb_ge; lia].
Qed.

(** The final copy loop writes [f s ob] at [s] for [s] in [i .. i+N). *)
Lemma write_loop_spec (N : nat) (i : Z) (f : Z -> list Z -> Z) (ob : list Z) (P : Z -> Prop) :
  (forall s b, P (f s b)) ->
  length (for_range N i (fun s ob => aset ob s (f s ob)) ob) = length ob
  /\ (forall j, j < i \/ i + Z.of_nat N <= j ->
        aget 0 (for_range N i (fun s ob => aset ob s (f s ob)) ob) j = aget 0 ob j)
  /\ (forall j, aget 0 (for_range N i (fun s ob => aset ob s (f s ob)) ob) j = aget 0 ob j
                \/ P (aget 0 (for_range N i (fun s ob => aset ob s (f s ob)) ob) j)).
Proof.
  intros HP. revert i ob. induction N as [|N IH]; intros i ob; simpl.
  - split; [reflexivity|split; [reflexivity|left; reflexivity]].
  - destruct (IH (i + 1) (aset ob i (f i ob))) as (L & O & W).
    split; [rewrite L, length_aset; reflexivity|split].
    + intros j Hj. rewrite O by lia. apply aget_aset_other. lia.
    + intros j. destruct (W j) as [E|E]; [|right; exact E].
      rewrite E. destruct (aget_aset_either 0 ob i j (f i ob)) as [E'|E'];
        rewrite E'; [right; apply HP|left; reflexivity].
Qed.

(** [mix_vgmstream] keeps the length of [outbuf] and never writes outside
    its first [sample_count * output_channels] samples. Every sample it
    changes is a [clamp16] result, in [-32768 .. 32767]. *)
Theorem mix_vgmstream_output_region (M : math) (outbuf : list Z) (sample_count : Z)
    (vs : VGMSTREAM) :
  length (fst (mix_vgmstream M outbuf sample_count vs)) = length outbuf
  /\ (forall d, mixing_data_p vs = Some d ->
        forall j, j < 0 \/ sample_count * output_channels d <= j ->
          aget 0 (fst (mix_vgmstream M outbuf sample_count vs)) j = aget 0 outbuf j)
  /\ (forall j, aget 0 (fst (mix_vgmstream M outbuf sample_count vs)) j = aget 0 outbuf j
                \/ -32768 <= aget 0 (fst (mix_vgmstream M outbuf sample_count vs)) j <= 32767).
Proof.
  unfold mix_vgmstream. destruct (mixing_data_p vs) as [d|] eqn:Ed.
  2:{ split; [reflexivity|split; [intros d' Hd'; discriminate Hd'|left; reflexivity]]. }
  destruct (negb (mixing_on d) || (mixing_count d =? 0)).
  { split; [reflexivity|split; [intros; reflexivity|left; reflexivity]]. }
  destruct (negb (is_active d _ _)).
  { split; [reflexivity|split; [intros; reflexivity|left; reflexivity]]. }
  unfold mix_pass.
  destruct (for_range _ 0 _ (mixbuf d, 0, 0)) as [[mb ?] ?]. simpl.
  destruct (write_loop_spec (Z.to_nat (sample_count * output_channels d)) 0
              (fun s _ => clamp16 (float_to_int32 (fget mb s))) outbuf
              (fun v => -32768 <= v <= 32767)) as (L & O & W).
  { intros s _. unfold clamp16. zcases; lia. }
  split; [exact L|split; [|exact W]].
  intros d' Hd' j Hj. injection Hd' as <-. apply O. lia.
Qed.

(** ** Channel counts left by [mixing_macro_track] and [mixing_macro_layer] *)

Lemma push_downmix_accept (vs : VGMSTREAM) (d : mixing_data) (ch : Z) :
  mixing_data_p vs = Some d -> mixing_on d = false -> mixing_count d + 1 <= mixing_size d ->
  0 <= ch < output_channels d -> 2 <= output_channels d ->
  exists d', mixing_data_p (mixing_push_downmix vs ch) = Some d'
    /\ output_channels d' = output_channels d - 1 /\ mixing_channels d' = mixing_channels d
    /\ mixing_on d' = false /\ mixing_count d' = mixing_count d + 1
    /\ mixing_size d' = mixing_size d.
Proof.
  intros Hd Ho Hs Hc H2. unfold mixing_push_downmix. rewrite Hd.
  replace (ch <? 0) with false by (symmetry; apply Z.ltb_ge; lia).
  replace ((ch >=? output_channels d) || (output_channels d - 1 <? 1)) with false
    by (symmetry; zcases; reflexivity || lia).
  unfold add_mixing. rewrite Hd, Ho.
  replace (mixing_count d + 1 >? mixing_size d) with false by (symmetry; zcases; reflexivity || lia).
  simpl. eexists. split; [reflexivity|]. simpl. repeat split; auto; lia.
Qed.

Lemma push_downmix_floor (vs : VGMSTREAM) (d : mixing_data) (ch : Z) :
  mixing_data_p vs = Some d -> output_channels d < 2 -> mixing_push_downmix vs ch = vs.
Proof.
  intros Hd H1. unfold mixing_push_downmix. rewrite Hd.
  destruct (ch <? 0); [reflexivity|].
  replace ((ch >=? output_channels d) || (output_channels d - 1 <? 1)) with true
    by (symmetry; zcases; simpl; reflexivity || lia).
  reflexivity.
Qed.

(** Number of channels [ch < n] whose bit is set in [mask]. *)
Fixpoint count_bits (n : nat) (mask : Z) : Z :=
  match n with
  | O => 0
  | S n' => count_bits n' mask + (if mask_bit mask (Z.of_nat n') then 1 else 0)
  end.

Lemma count_bits_nonneg n mask : 0 <= count_bits n mask.
Proof. induction n as [|n IH]; simpl; [lia|destruct (mask_bit mask (Z.of_nat n)); lia]. Qed.

Lemma macro_track_loop_count (n : nat) (mask : Z) (vs : VGMSTREAM) (d : mixing_data) :
  mixing_data_p vs = Some d -> mixing_on d = false -> 1 <= output_channels d ->
  Z.of_nat n <= output_channels d -> mixing_count d + Z.of_nat n <= mixing_size d ->
  exists d', mixing_data_p (macro_track_loop n mask vs) = Some d'
    /\ output_channels d' = Z.max 1 (output_channels d - Z.of_nat n + count_bits n mask)
    /\ mixing_count d' + output_channels d' = mixing_count d + output_channels d
    /\ mixing_channels d' = mixing_channels d
    /\ mixing_on d' = false /\ mixing_size d' = mixing_size d.
Proof.
  revert vs d. induction n as [|n IH]; intros vs d Hd Ho H1 Hn Hs.
  - exists d. simpl. repeat split; auto; lia.
  - simpl. destruct (mask_bit mask (Z.of_nat n)) eqn:Eb.
    + destruct (IH vs d) as (d' & E & Eo & Ec & Em & Eon & Esz); auto; try lia.
      exists d'. repeat split; auto; lia.
    + destruct (Z.leb_spec 2 (output_channels d)) as [H2|H2].
      * destruct (push_downmix_accept vs d (Z.of_nat n)) as (d1 & E1 & O1 & M1 & On1 & C1 & S1);
          auto; try lia.
        destruct (IH _ d1 E1) as (d' & E & Eo & Ec & Em & Eon & Esz); auto; try lia.
        exists d'. repeat split; auto; lia.
      * rewrite (push_downmix_floor vs d) by (auto; lia).
        assert (n = O) by lia. subst n. simpl. exists d. repeat split; auto; lia.
Qed.

(** [mixing_macro_track] with a non-zero mask, before activation and with
    room for one command per channel, leaves as many output channels as
    there are mask bits set below [output_channels], but never fewer than
    one; each removed channel costs one chain slot and [mixing_channels]
    does not change. *)
Theorem mixing_macro_track_output (vs : VGMSTREAM) (d : mixing_data) (mask : Z) :
  mixing_data_p vs = Some d -> mixing_on d = false -> mask <> 0 ->
  1 <= output_channels d -> mixing_count d + output_channels d <= mixing_size d ->
  exists d', mixing_data_p (mixing_macro_track vs mask) = Some d'
    /\ output_channels d' = Z.max 1 (count_bits (Z.to_nat (output_channels d)) mask)
    /\ mixing_count d' = mixing_count d + (output_channels d - output_channels d')
    /\ mixing_channels d' = mixing_channels d.
Proof.
  intros Hd Ho Hm H1 Hs. unfold mixing_macro_track. rewrite Hd.
  replace (mask =? 0) with false by (symmetry; apply Z.eqb_neq, Hm).
  destruct (macro_track_loop_count (Z.to_nat (output_channels d)) mask vs d)
    as (d' & E & Eo & Ec & Em & _); auto; try lia.
  exists d'. rewrite Z2Nat.id in Eo by lia. repeat split; auto; lia.
Qed.

Lemma mixing_macro_track_output_witness :
  let d := mkData 2 2 false 0 VGMSTREAM_MAX_MIXING
                  (repeat mix_zero (Z.to_nat VGMSTREAM_MAX_MIXING)) [] in
  mixing_data_p (mixing_init stereo_stream) = Some d
  /\ exists d', mixing_data_p (mixing_macro_track (mixing_init stereo_stream) 1) = Some d'
    /\ output_channels d' = Z.max 1 (count_bits (Z.to_nat (output_channels d)) 1)
    /\ mixing_count d' = mixing_count d + (output_channels d - output_channels d')
    /\ mixing_channels d' = mixing_channels d.
Proof.
  intros d. split; [reflexivity|].
  apply (mixing_macro_track_output (mixing_init stereo_stream) d 1);
    [reflexivity|reflexivity|discriminate|simpl; lia|unfold d, VGMSTREAM_MAX_MIXING; simpl; lia].
Defined.

Lemma push_upmix_accept (MAX : Z) (vs : VGMSTREAM) (d : mixing_data) (ch : Z) :
  mixing_data_p vs = Some d -> mixing_on d = false -> mixing_count d + 1 <= mixing_size d ->
  0 <= ch <= output_channels d -> output_channels d + 1 <= MAX ->
  exists d', mixing_data_p (mixing_push_upmix MAX vs ch) = Some d'
    /\ output_channels d' = output_channels d + 1
    /\ mixing_channels d' = Z.max (mixing_channels d) (output_channels d + 1)
    /\ mixing_on d' = false /\ mixing_count d' = mixing_count d + 1
    /\ mixing_size d' = mixing_size d.
Proof.
  intros Hd Ho Hs Hc HM. unfold mixing_push_upmix. rewrite Hd.
  replace (ch <? 0) with false by (symmetry; apply Z.ltb_ge; lia).
  replace ((ch >? output_channels d) || (output_channels d + 1 >? MAX)) with false
    by (symmetry; zcases; reflexivity || lia).
  unfold add_mixing. rewrite Hd, Ho.
  replace (mixing_count d + 1 >? mixing_size d) with false by (symmetry; zcases; reflexivity || lia).
  simpl. destruct (Z.ltb_spec (mixing_channels d) (output_channels d + 1)).
  - eexists. split; [reflexivity|]. simpl. repeat split; auto; lia.
  - eexists. split; [reflexivity|]. simpl. repeat split; auto; lia.
Qed.

Lemma push_killmix_accept (vs : VGMSTREAM) (d : mixing_data) (k : Z) :
  mixing_data_p vs = Some d -> mixing_on d = false -> mixing_count d + 1 <= mixing_size d ->
  0 < k < output_channels d ->
  exists d', mixing_data_p (mixing_push_killmix vs k) = Some d'
    /\ output_channels d' = k /\ mixing_channels d' = mixing_channels d.
Proof.
  intros Hd Ho Hs Hk. unfold mixing_push_killmix.
  replace (k <=? 0) with false by (symmetry; apply Z.leb_gt; lia). rewrite Hd.
  replace (k >=? output_channels d) with false by (symmetry; zcases; reflexivity || lia).
  unfold add_mixing. rewrite Hd, Ho.
  replace (mixing_count d + 1 >? mixing_size d) with false by (symmetry; zcases; reflexivity || lia).
  simpl. eexists. split; [reflexivity|]. simpl. split; reflexivity.
Qed.

(** [mixing_push_add] never changes the channel counts; it adds at most one
    command. *)
Lemma push_add_keeps (vs : VGMSTREAM) (d : mixing_data) (a b : Z) (v : Q) :
  mixing_data_p vs = Some d ->
  exists d', mixing_data_p (mixing_push_add vs a b v) = Some d'
    /\ output_channels d' = output_channels d /\ mixing_channels d' = mixing_channels d
    /\ mixing_on d' = mixing_on d /\ mixing_size d' = mixing_size d
    /\ mixing_count d <= mixing_count d' <= mixing_count d + 1.
Proof.
  intros Hd.
  assert (Hself : exists d', mixing_data_p vs = Some d'
    /\ output_channels d' = output_channels d /\ mixing_channels d' = mixing_channels d
    /\ mixing_on d' = mixing_on d /\ mixing_size d' = mixing_size d
    /\ mixing_count d <= mixing_count d' <= mixing_count d + 1)
    by (exists d; repeat split; auto; lia).
  unfold mixing_push_add. rewrite Hd.
  destruct (Qeq_bool v 0); [exact Hself|].
  destruct ((a <? 0) || (b <? 0)); [exact Hself|].
  destruct ((a >=? output_channels d) || (b >=? output_channels d)); [exact Hself|].
  destruct (add_mixing_cases vs (mkMix MIX_ADD a b v 0 0 Ascii.zero 0 0 0 0))
    as [Hr|(d0 & Hd0 & _ & _ & Hr)]; rewrite Hr; [exact Hself|].
  rewrite Hd in Hd0. injection Hd0 as <-. simpl. eexists. split; [reflexivity|].
  simpl. repeat split; auto; lia.
Qed.

Lemma upmix_loop_count (MAX : Z) (k : nat) (i : Z) (vs : VGMSTREAM) (d : mixing_data) :
  mixing_data_p vs = Some d -> mixing_on d = false -> 0 <= output_channels d ->
  mixing_count d + Z.of_nat k <= mixing_size d -> output_channels d + Z.of_nat k <= MAX ->
  exists d', mixing_data_p (for_range k i (fun _ vs' => mixing_push_upmix MAX vs' 0) vs) = Some d'
    /\ output_channels d' = output_channels d + Z.of_nat k
    /\ mixing_channels d' =
         (if (k =? 0)%nat then mixing_channels d
          else Z.max (mixing_channels d) (output_channels d + Z.of_nat k))
    /\ mixing_on d' = false /\ mixing_count d' = mixing_count d + Z.of_nat k
    /\ mixing_size d' = mixing_size d.
Proof.
  revert i vs d. induction k as [|k IH]; intros i vs d Hd Ho H0 Hs HM.
  - exists d. simpl. repeat split; auto; lia.
  - simpl. destruct (push_upmix_accept MAX vs d 0) as (d1 & E1 & O1 & M1 & On1 & C1 & S1);
      auto; try lia.
    destruct (IH (i + 1) _ d1 E1) as (d' & E & Eo & Em & Eon & Ec & Esz); auto; try lia.
    exists d'. rewrite E. repeat split; auto; try lia.
    rewrite Em. destruct (Nat.eqb_spec k 0); lia.
Qed.

(** A loop whose every step either keeps the stream or pushes one [Add]. *)
Lemma add_loop_count {S} (n : nat) (i : Z) (body : Z -> VGMSTREAM * S -> VGMSTREAM * S)
    (st : VGMSTREAM * S) (d : mixing_data) :
  (forall ch st, fst (body ch st) = fst st
                 \/ exists a b v, fst (body ch st) = mixing_push_add (fst st) a b v) ->
  mixing_data_p (fst st) = Some d ->
  exists d', mixing_data_p (fst (for_range n i body st)) = Some d'
    /\ output_channels d' = output_channels d /\ mixing_channels d' = mixing_channels d
    /\ mixing_on d' = mixing_on d /\ mixing_size d' = mixing_size d
    /\ mixing_count d <= mixing_count d' <= mixing_count d + Z.of_nat n.
Proof.
  intros Hb. revert i st d. induction n as [|n IH]; intros i st d Hd.
  - exists d. simpl. repeat split; auto; lia.
  - simpl. destruct (Hb i st) as [E|(a & b & v & E)].
    + destruct (IH (i + 1) (body i st) d) as (d' & E' & O' & M' & On' & S' & C');
        [rewrite E; exact Hd|].
      exists d'. repeat split; auto; lia.
    + destruct (push_add_keeps (fst st) d a b v Hd) as (d1 & E1 & O1 & M1 & On1 & S1 & C1).
      destruct (IH (i + 1) (body i st) d1) as (d' & E' & O' & M' & On' & S' & C');
        [rewrite E; exact E1|].
      exists d'. repeat split; auto; try congruence; lia.
Qed.

(** [mixing_macro_layer] with [0 < max < output_channels], before
    activation, with room in the chain for all its commands and
    [output_channels + max <= VGMSTREAM_MAX_CHANNELS], ends with exactly
    [max] output channels, whatever the mask and mode; [mixing_channels]
    has grown to hold the [max] fake channels added in front. *)
Theorem mixing_macro_layer_output (MAX : Z) (M : math) (vs : VGMSTREAM) (d : mixing_data)
    (max mask : Z) (mode : ascii) :
  mixing_data_p vs = Some d -> mixing_on d = false ->
  0 < max < output_channels d -> output_channels d + max <= MAX ->
  mixing_count d + max + output_channels d + 1 <= mixing_size d ->
  exists d', mixing_data_p (mixing_macro_layer MAX M vs max mask mode) = Some d'
    /\ output_channels d' = max
    /\ mixing_channels d' = Z.max (mixing_channels d) (output_channels d + max).
Proof.
  intros Hd Ho Hmax HM Hs. unfold mixing_macro_layer. rewrite Hd.
  replace ((max <=? 0) || (output_channels d <=? max)) with false
    by (symmetry; zcases; reflexivity || lia).
  cbv zeta.
  destruct (upmix_loop_count MAX (Z.to_nat max) 0 vs d) as (d1 & E1 & O1 & M1 & On1 & C1 & S1);
    auto; try lia.
  rewrite Z2Nat.id in O1, M1, C1 by lia.
  replace (Z.to_nat max =? 0)%nat with false in M1 by (symmetry; apply Nat.eqb_neq; lia).
  match goal with
  | |- context [for_range ?n 0 ?body (?v1, 0)] =>
      destruct (add_loop_count n 0 body (v1, 0) d1) as (d2 & E2 & O2 & M2 & On2 & S2 & C2);
      [intros ch [v' c]; simpl; destruct (negb _); [left; reflexivity|right; do 3 eexists; reflexivity]
      |exact E1|];
      destruct (for_range n 0 body (v1, 0)) as [vs2 c2]
  end.
  simpl in E2. rewrite Z2Nat.id in C2 by lia.
  destruct (push_killmix_accept vs2 d2 max) as (d' & E & Ok & Mk); auto; try congruence; try lia.
  exists d'. repeat split; auto; congruence.
Qed.

Lemma mixing_macro_layer_output_witness :
  let d := mkData 4 4 false 0 VGMSTREAM_MAX_MIXING
                  (repeat mix_zero (Z.to_nat VGMSTREAM_MAX_MIXING)) [] in
  mixing_data_p (mixing_init quad_stream) = Some d
  /\ exists d', mixing_data_p (mixing_macro_layer 8 identity_math (mixing_init quad_stream)
                                                 2 0 "e"%char) = Some d'
    /\ output_channels d' = 2
    /\ mixing_channels d' = Z.max (mixing_channels d) (output_channels d + 2).
Proof.
  intros d. split; [reflexivity|].
  apply (mixing_macro_layer_output 8 identity_math (mixing_init quad_stream) d 2 0 "e"%char);
    [reflexivity|reflexivity|simpl; lia|simpl; lia|unfold d, VGMSTREAM_MAX_MIXING; simpl; lia].
Defined.

(** ** Chaining fades *)

(** When the previous fade ends before the new one and one of the two ends
    is open, [fade_stitch] joins them at one point: the end of the previous
    fade's post-time when it is set, else its [time_end].  A set [time_pre]
    of the new fade is overwritten too, since the first [if] of the C code
    tests [mix_prev->time_post < 0] twice. *)
Lemma fade_stitch_joined (prev mix : mix_command_data) :
  fade_open_ends prev mix = true ->
  time_end prev <= time_start mix ->
  (0 <= time_post prev -> time_post prev <= time_start mix) ->
  (0 <= time_pre mix -> time_end prev <= time_pre mix) ->
  let m := if time_post prev <? 0 then time_end prev else time_post prev in
  fade_stitch prev mix = (set_time_post prev m, set_time_pre mix m).
Proof.
  destruct prev as [c1 d1 s1 v1 vs1 ve1 sh1 pre1 st1 en1 po1],
           mix as [c2 d2 s2 v2 vs2 ve2 sh2 pre2 st2 en2 po2].
  unfold fade_stitch, fade_open_ends, set_time_post, set_time_pre; simpl.
  intros Hopen H1 H2 H3. revert Hopen.
  repeat progress (zcases; simpl); intros; first [discriminate | reflexivity | lia].
Qed.

(** [mixing_push_fade] after a fade on the same channel that ends before
    the new one, when the previous post-time or the new pre-time is open
    (negative): the new command is stored at [mixing_count] and the stored
    previous fade is rewritten in place, so that the previous fade's
    [time_post] and the new fade's [time_pre] are the same point; every
    other slot keeps its command. *)
Theorem mixing_push_fade_chains (vs : VGMSTREAM) (d : mixing_data) (ch : Z) (vol_s vol_e : Q)
    (sh : ascii) (tpre tstart tend tpost : Z) (i : nat) :
  mixing_data_p vs = Some d -> mixing_on d = false ->
  0 <= mixing_count d -> mixing_count d + 1 <= mixing_size d ->
  mixing_size d <= Z.of_nat (length (mixing_chain d)) ->
  ch < output_channels d ->
  tpre <= tstart -> tstart <= tend -> 0 <= tstart -> (0 <= tpost -> tend <= tpost) ->
  get_last_fade d ch = Some i ->
  time_post (nth i (mixing_chain d) mix_zero) < 0 \/ tpre < 0 ->
  time_end (nth i (mixing_chain d) mix_zero) <= tstart ->
  (0 <= time_post (nth i (mixing_chain d) mix_zero) ->
   time_post (nth i (mixing_chain d) mix_zero) <= tstart) ->
  (0 <= tpre -> time_end (nth i (mixing_chain d) mix_zero) <= tpre) ->
  exists d', mixing_data_p (mixing_push_fade vs ch vol_s vol_e sh tpre tstart tend tpost) = Some d'
    /\ mixing_count d' = mixing_count d + 1
    /\ nth i (mixing_chain d') mix_zero =
         set_time_post (nth i (mixing_chain d) mix_zero)
           (if time_post (nth i (mixing_chain d) mix_zero) <? 0
            then time_end (nth i (mixing_chain d) mix_zero)
            else time_post (nth i (mixing_chain d) mix_zero))
    /\ nth (Z.to_nat (mixing_count d)) (mixing_chain d') mix_zero =
         mkMix MIX_FADE ch 0 0 vol_s vol_e (fade_alias sh)
           (if time_post (nth i (mixing_chain d) mix_zero) <? 0
            then time_end (nth i (mixing_chain d) mix_zero)
            else time_post (nth i (mixing_chain d) mix_zero))
           tstart tend tpost
    /\ (forall j, j <> i -> j <> Z.to_nat (mixing_count d) ->
          nth j (mixing_chain d') mix_zero = nth j (mixing_chain d) mix_zero).
Proof.
  intros Hd Ho Hc Hs Hl Hch H1 H2 H3 H4 Hi Hopen Ha Hb Hpre.
  assert (Hic : (i < Z.to_nat (mixing_count d))%nat).
  { pose proof (get_last_fade_from_spec (Z.to_nat (mixing_count d)) (mixing_chain d) ch) as G.
    unfold get_last_fade in Hi. rewrite Hi in G. apply G. }
  unfold mixing_push_fade. rewrite Hd.
  replace (ch >=? output_channels d) with false by (symmetry; zcases; reflexivity || lia).
  replace ((tpre >? tstart) || (tstart >? tend) || ((tpost >=? 0) && (tend >? tpost))) with false
    by (symmetry; zcases; simpl; reflexivity || lia).
  replace ((tstart <? 0) || (tend <? 0)) with false by (symmetry; zcases; simpl; reflexivity || lia).
  cbv zeta. rewrite Hi.
  set (prev := nth i (mixing_chain d) mix_zero) in *.
  set (mix := mkMix MIX_FADE ch 0 0 vol_s vol_e (fade_alias sh) tpre tstart tend tpost).
  assert (Hoe : fade_open_ends prev mix = true)
    by (unfold fade_open_ends; simpl; destruct Hopen; zcases; simpl; reflexivity || lia).
  rewrite Hoe. rewrite (fade_stitch_joined prev mix Hoe Ha Hb Hpre).
  set (m := if time_post prev <? 0 then time_end prev else time_post prev).
  unfold add_mixing. simpl. rewrite Ho.
  replace (mixing_count d + 1 >? mixing_size d) with false by (symmetry; zcases; reflexivity || lia).
  eexists. split; [reflexivity|]. simpl.
  assert (Hlen : (Z.to_nat (mixing_count d) < length (replace_nth i (set_time_post prev m) (mixing_chain d)))%nat)
    by (rewrite length_replace_nth; lia).
  unfold aset. replace (mixing_count d <? 0) with false by (symmetry; apply Z.ltb_ge; lia).
  split; [reflexivity|]. split; [|split].
  - rewrite nth_replace_nth.
    replace (Nat.eqb i (Z.to_nat (mixing_count d))) with false by (symmetry; apply Nat.eqb_neq; lia).
    simpl. rewrite nth_replace_nth, Nat.eqb_refl.
    replace (Nat.ltb i (length (mixing_chain d))) with true by (symmetry; apply Nat.ltb_lt; lia).
    reflexivity.
  - rewrite nth_replace_nth, Nat.eqb_refl.
    replace (Nat.ltb (Z.to_nat (mixing_count d)) _) with true by (symmetry; apply Nat.ltb_lt; exact Hlen).
    reflexivity.
  - intros j Hj1 Hj2. rewrite nth_replace_nth.
    replace (Nat.eqb j (Z.to_nat (mixing_count d))) with false by (symmetry; apply Nat.eqb_neq; exact Hj2).
    simpl. rewrite nth_replace_nth.
    replace (Nat.eqb j i) with false by (symmetry; apply Nat.eqb_neq; exact Hj1).
    reflexivity.
Qed.

(** A stereo stream holding one fade of all channels from 1 to 0 over
    [0 .. 100], with both ends open. *)
Definition faded_stream : VGMSTREAM :=
  mixing_push_fade (mixing_init stereo_stream) (-1) 1 0 "T"%char (-1) 0 100 (-1).

Definition faded_data : mixing_data :=
  match mixing_data_p faded_stream with Some d => d | None => mkData 0 0 false 0 0 [] [] end.

Lemma mixing_push_fade_chains_witness :
  mixing_data_p faded_stream = Some faded_data
  /\ exists d', mixing_data_p (mixing_push_fade faded_stream (-1) 0 1 "T"%char (-1) 200 300 (-1))
                = Some d'
    /\ mixing_count d' = mixing_count faded_data + 1
    /\ nth 0 (mixing_chain d') mix_zero =
         set_time_post (nth 0 (mixing_chain faded_data) mix_zero)
           (if time_post (nth 0 (mixing_chain faded_data) mix_zero) <? 0
            then time_end (nth 0 (mixing_chain faded_data) mix_zero)
            else time_post (nth 0 (mixing_chain faded_data) mix_zero))
    /\ nth (Z.to_nat (mixing_count faded_data)) (mixing_chain d') mix_zero =
         mkMix MIX_FADE (-1) 0 0 0 1 (fade_alias "T"%char)
           (if time_post (nth 0 (mixing_chain faded_data) mix_zero) <? 0
            then time_end (nth 0 (mixing_chain faded_data) mix_zero)
            else time_post (nth 0 (mixing_chain faded_data) mix_zero))
           200 300 (-1)
    /\ (forall j, j <> O -> j <> Z.to_nat (mixing_count faded_data) ->
          nth j (mixing_chain d') mix_zero = nth j (mixing_chain faded_data) mix_zero).
Proof.
  split; [vm_compute; reflexivity|].
  apply (mixing_push_fade_chains faded_stream faded_data (-1) 0 1 "T"%char (-1) 200 300 (-1) 0);
    try (vm_compute; reflexivity); try (vm_compute; discriminate); try lia.
  all: vm_compute.
  all: try (left; reflexivity); try (intros Hx; discriminate); try (intros Hx; exfalso; apply Hx; reflexivity).
Defined.

(** ** Commands added by [mixing_macro_volume] *)

Lemma for_range_snoc {A} (n : nat) (i : Z) (body : Z -> A -> A) (a : A) :
  for_range (S n) i body a = body (i + Z.of_nat n) (for_range n i body a).
Proof.
  revert i a. induction n as [|n IH]; intros i a.
  - simpl. rewrite Z.add_0_r. reflexivity.
  - change (for_range (S (S n)) i body a) with (for_range (S n) (i + 1) body (body i a)).
    rewrite IH. simpl. f_equal. lia.
Qed.

Lemma count_bits_le n mask : count_bits n mask <= Z.of_nat n.
Proof. induction n as [|n IH]; simpl; [lia|destruct (mask_bit mask (Z.of_nat n)); lia]. Qed.

Lemma push_volume_accept (vs : VGMSTREAM) (d : mixing_data) (ch : Z) (v : Q) :
  mixing_data_p vs = Some d -> mixing_on d = false -> mixing_count d + 1 <= mixing_size d ->
  ch < output_channels d -> Qeq_bool v 1 = false ->
  exists d', mixing_data_p (mixing_push_volume vs ch v) = Some d'
    /\ output_channels d' = output_channels d /\ mixing_channels d' = mixing_channels d
    /\ mixing_on d' = false /\ mixing_count d' = mixing_count d + 1
    /\ mixing_size d' = mixing_size d.
Proof.
  intros Hd Ho Hs Hc Hv. unfold mixing_push_volume. rewrite Hv, Hd.
  replace (ch >=? output_channels d) with false by (symmetry; zcases; reflexivity || lia).
  unfold add_mixing. rewrite Hd, Ho.
  replace (mixing_count d + 1 >? mixing_size d) with false by (symmetry; zcases; reflexivity || lia).
  simpl. eexists. split; [reflexivity|]. simpl. repeat split; auto; lia.
Qed.

Lemma macro_volume_loop_count (n : nat) (mask : Z) (v : Q) (vs : VGMSTREAM) (d : mixing_data) :
  mixing_data_p vs = Some d -> mixing_on d = false -> Qeq_bool v 1 = false ->
  Z.of_nat n <= output_channels d -> mixing_count d + Z.of_nat n <= mixing_size d ->
  exists d', mixing_data_p (for_range n 0
               (fun ch vs' => if mask_bit mask ch then mixing_push_volume vs' ch v else vs') vs)
             = Some d'
    /\ output_channels d' = output_channels d /\ mixing_channels d' = mixing_channels d
    /\ mixing_on d' = false /\ mixing_size d' = mixing_size d
    /\ mixing_count d' = mixing_count d + count_bits n mask.
Proof.
  intros Hd Ho Hv. induction n as [|n IH]; intros Hn Hs.
  - exists d. simpl. repeat split; auto; lia.
  - rewrite for_range_snoc. simpl (0 + Z.of_nat n).
    destruct IH as (d1 & E1 & O1 & M1 & On1 & S1 & C1); try lia.
    pose proof (count_bits_le n mask). simpl count_bits.
    destruct (mask_bit mask (Z.of_nat n)).
    + destruct (push_volume_accept _ d1 (Z.of_nat n) v E1 On1) as (d' & E & O & Mc & On & C & Sz);
        auto; try lia.
      exists d'. repeat split; auto; lia.
    + exists d1. repeat split; auto; lia.
Qed.

(** [mixing_macro_volume] with a volume other than 1, before activation and
    with room for one command per channel, adds exactly one [Volume] command
    per channel whose mask bit is set (one command for all channels when the
    mask is 0) and changes no channel count. *)
Theorem mixing_macro_volume_count (vs : VGMSTREAM) (d : mixing_data) (volume : Q) (mask : Z) :
  mixing_data_p vs = Some d -> mixing_on d = false -> Qeq_bool volume 1 = false ->
  1 <= output_channels d -> mixing_count d + output_channels d <= mixing_size d ->
  exists d', mixing_data_p (mixing_macro_volume vs volume mask) = Some d'
    /\ mixing_count d' = mixing_count d
         + (if mask =? 0 then 1 else count_bits (Z.to_nat (output_channels d)) mask)
    /\ output_channels d' = output_channels d /\ mixing_channels d' = mixing_channels d.
Proof.
  intros Hd Ho Hv H1 Hs. unfold mixing_macro_volume. rewrite Hd.
  destruct (Z.eqb_spec mask 0).
  - destruct (push_volume_accept vs d (-1) volume Hd Ho) as (d' & E & O & Mc & _ & C & _);
      auto; try lia.
    exists d'. repeat split; auto.
  - destruct (macro_volume_loop_count (Z.to_nat (output_channels d)) mask volume vs d)
      as (d' & E & O & Mc & _ & _ & C); auto; try lia.
    exists d'. repeat split; auto.
Qed.

Lemma mixing_macro_volume_count_witness :
  let d := mkData 4 4 false 0 VGMSTREAM_MAX_MIXING
                  (repeat mix_zero (Z.to_nat VGMSTREAM_MAX_MIXING)) [] in
  mixing_data_p (mixing_init quad_stream) = Some d
  /\ exists d', mixing_data_p (mixing_macro_volume (mixing_init quad_stream) (1 # 2) 5) = Some d'
    /\ mixing_count d' = mixing_count d
         + (if 5 =? 0 then 1 else count_bits (Z.to_nat (output_channels d)) 5)
    /\ output_channels d' = output_channels d /\ mixing_channels d' = mixing_channels d.
Proof.
  intros d. split; [reflexivity|].
  apply (mixing_macro_volume_count (mixing_init quad_stream) d (1 # 2) 5);
    [reflexivity|reflexivity|reflexivity|simpl; lia|unfold d, VGMSTREAM_MAX_MIXING; simpl; lia].
Defined.

(** ** Channel counts left by the crossfade macros *)

(** [v'] is reached from [v] by at most [k] added commands, with the
    activation flag and the chain size kept and no output channel lost. *)
Definition budget (k : Z) (v v' : VGMSTREAM) : Prop :=
  forall d, mixing_data_p v = Some d ->
  exists d', mixing_data_p v' = Some d'
    /\ mixing_on d' = mixing_on d /\ mixing_size d' = mixing_size d
    /\ output_channels d <= output_channels d'
    /\ mixing_count d <= mixing_count d' <= mixing_count d + k.

Lemma budget_refl k v : 0 <= k -> budget k v v.
Proof. intros Hk d Hd. exists d. repeat split; auto; lia. Qed.

Lemma budget_trans a b v1 v2 v3 : budget a v1 v2 -> budget b v2 v3 -> budget (a + b) v1 v3.
Proof.
  intros H1 H2 d Hd. destruct (H1 d Hd) as (d2 & E2 & On2 & S2 & O2 & C2).
  destruct (H2 d2 E2) as (d3 & E3 & On3 & S3 & O3 & C3).
  exists d3. repeat split; auto; try congruence; lia.
Qed.

Lemma budget_weaken a b v v' : a <= b -> budget a v v' -> budget b v v'.
Proof.
  intros Hab H d Hd. destruct (H d Hd) as (d' & E & On & S & O & C).
  exists d'. repeat split; auto; lia.
Qed.

Lemma add_mixing_budget vs mix : budget 1 vs (snd (add_mixing vs mix)).
Proof.
  intros d Hd. destruct (add_mixing_cases vs mix) as [Hr|(d0 & Hd0 & _ & _ & Hr)]; rewrite Hr.
  - exists d. repeat split; auto; lia.
  - rewrite Hd in Hd0. injection Hd0 as <-. simpl. eexists. split; [reflexivity|].
    simpl. repeat split; auto; lia.
Qed.

Lemma push_add_budget vs a b v : budget 1 vs (mixing_push_add vs a b v).
Proof.
  intros d Hd. destruct (push_add_keeps vs d a b v Hd) as (d' & E & O & Mc & On & S & C).
  exists d'. repeat split; auto; lia.
Qed.

Lemma push_upmix_budget MAX vs a : budget 1 vs (mixing_push_upmix MAX vs a).
Proof.
  intros d Hd. unfold mixing_push_upmix.
  destruct (a <? 0); [exact (budget_refl 1 vs ltac:(lia) d Hd)|]. rewrite Hd.
  destruct (_ || _); [exact (budget_refl 1 vs ltac:(lia) d Hd)|].
  destruct (add_mixing_cases vs (mkMix MIX_UPMIX a 0 0 0 0 Ascii.zero 0 0 0 0))
    as [Hr|(d0 & Hd0 & _ & _ & Hr)]; rewrite Hr.
  - exists d. repeat split; auto; lia.
  - rewrite Hd in Hd0. injection Hd0 as <-. simpl. unfold set_output_channels, set_mixing_channels.
    simpl. destruct (mixing_channels d <? output_channels d + 1);
      (eexists; split; [reflexivity|]); simpl; repeat split; auto; lia.
Qed.

Lemma push_fade_budget vs ch v1 v2 sh t1 t2 t3 t4 :
  budget 1 vs (mixing_push_fade vs ch v1 v2 sh t1 t2 t3 t4).
Proof.
  intros d Hd. unfold mixing_push_fade. rewrite Hd.
  destruct (ch >=? output_channels d); [exact (budget_refl 1 vs ltac:(lia) d Hd)|].
  destruct (_ || _ || _); [exact (budget_refl 1 vs ltac:(lia) d Hd)|].
  destruct (_ || _); [exact (budget_refl 1 vs ltac:(lia) d Hd)|].
  cbv zeta. destruct (get_last_fade d ch) as [i|]; [|exact (add_mixing_budget vs _ d Hd)].
  destruct (fade_open_ends _ _); [|exact (add_mixing_budget vs _ d Hd)].
  destruct (fade_stitch _ _) as [p' m'].
  destruct (add_mixing_budget
              (set_data vs (set_chain d (replace_nth i p' (mixing_chain d)))) m' _ eq_refl)
    as (d' & E & On & S & O & C).
  exists d'. simpl in *. repeat split; auto; lia.
Qed.

Lemma config_budget vs n : budget 0 vs (set_config_loop_count vs n).
Proof. intros d Hd. exists d. repeat split; auto; lia. Qed.

Lemma for_range_budget {A} (proj : A -> VGMSTREAM) (k : Z) (n : nat) (i : Z)
    (body : Z -> A -> A) (a : A) :
  0 <= k -> (forall j x, budget k (proj x) (proj (body j x))) ->
  budget (k * Z.of_nat n) (proj a) (proj (for_range n i body a)).
Proof.
  intros Hk Hb. revert i a. induction n as [|n IH]; intros i a.
  - apply budget_refl. lia.
  - change (for_range (S n) i body a) with (for_range n (i + 1) body (body i a)).
    replace (k * Z.of_nat (S n)) with (k + k * Z.of_nat n) by lia.
    eapply budget_trans; [apply Hb|apply IH].
Qed.

Lemma cross_prologue_spec MAX vs d max vs2 oc num :
  mixing_data_p vs = Some d -> cross_prologue MAX vs d max = (vs2, oc, num) ->
  budget 1 vs vs2 /\ output_channels d <= oc <= output_channels d + 1 /\ num = Z.quot oc max.
Proof.
  intros Hd Hp. unfold cross_prologue in Hp.
  destruct (negb (Z.rem (output_channels d) 2 =? 0)); cbv beta iota zeta in Hp;
    injection Hp as <- <- <-; (split; [|split; [lia|reflexivity]]).
  - replace 1 with (1 + 0) by lia. eapply budget_trans; [apply push_upmix_budget|].
    destruct (_ <? _); [apply config_budget|apply budget_refl; lia].
  - destruct (_ <? _); [apply budget_weaken with 0; [lia|apply config_budget]|apply budget_refl; lia].
Qed.

Lemma mix_into_first_budget max oc vs :
  budget (Z.of_nat (Z.to_nat (oc - max))) vs (mix_into_first max oc vs).
Proof.
  unfold mix_into_first.
  apply budget_weaken with (1 * Z.of_nat (Z.to_nat (oc - max))); [lia|].
  apply (for_range_budget fst 1 _ max _ (vs, 0)); [lia|].
  intros j [v c]. apply push_add_budget.
Qed.

Lemma quot_bound a b : 0 <= a -> 0 < b -> 0 <= Z.quot a b <= a.
Proof.
  intros Ha Hb. rewrite Z.quot_div_nonneg by lia. split; [apply Z.div_pos; lia|].
  apply Z.div_le_upper_bound; nia.
Qed.

(** [mixing_macro_crosstrack], on a looping stream, before activation, with
    [0 < max < output_channels] and room in the chain for all the fades and
    adds it pushes, ends with exactly [max] output channels. *)
Theorem mixing_macro_crosstrack_output (MAX : Z) (vs : VGMSTREAM) (d : mixing_data) (max : Z) :
  mixing_data_p vs = Some d -> mixing_on d = false -> loop_flag vs = true ->
  0 < max < output_channels d ->
  mixing_count d + 2 * max * (output_channels d + 1) + output_channels d + 3 <= mixing_size d ->
  exists d', mixing_data_p (mixing_macro_crosstrack MAX vs max) = Some d'
    /\ output_channels d' = max.
Proof.
  intros Hd Ho Hl Hmax Hs. unfold mixing_macro_crosstrack. rewrite Hd.
  replace ((max <=? 0) || (output_channels d <=? max)) with false
    by (symmetry; zcases; reflexivity || lia).
  rewrite Hl. cbv beta iota zeta.
  destruct (cross_prologue MAX vs d max) as [[vs2 oc] num] eqn:Ep.
  destruct (cross_prologue_spec MAX vs d max vs2 oc num Hd Ep) as (B1 & Hoc & Hnum).
  destruct (quot_bound oc max) as [Hn0 Hn1]; try lia. rewrite <- Hnum in Hn0, Hn1.
  match goal with
  | |- context [for_range ?n 0 ?body (vs2, 0)] =>
      assert (B2 : budget (2 * max * Z.of_nat n) (fst (vs2, 0)) (fst (for_range n 0 body (vs2, 0))));
      [apply for_range_budget; [lia|]
      |destruct (for_range n 0 body (vs2, 0)) as [vs3 c3] eqn:E3]
  end.
  { intros j [v c]. cbv beta iota zeta. cbn [fst].
    replace (2 * max) with (2 * Z.of_nat (Z.to_nat max)) by lia.
    match goal with
    | |- budget _ v (for_range ?n ?i ?body v) =>
        apply (for_range_budget (fun x : VGMSTREAM => x) 2 n i body v); [lia|]
    end.
    intros t x. cbv beta.
    destruct (j >? 0); destruct (j + 1 <? num).
    - replace 2 with (1 + 1) by lia. eapply budget_trans; apply push_fade_budget.
    - apply budget_weaken with 1; [lia|apply push_fade_budget].
    - apply budget_weaken with 1; [lia|apply push_fade_budget].
    - apply budget_refl. lia. }
  cbn [fst] in B2. rewrite Z2Nat.id in B2 by lia.
  pose proof (mix_into_first_budget max oc vs3) as B3.
  rewrite Z2Nat.id in B3 by lia.
  destruct (budget_trans _ _ _ _ _ B1 (budget_trans _ _ _ _ _ B2 B3) d Hd)
    as (d4 & E4 & On4 & S4 & O4 & C4).
  assert (2 * max * num <= 2 * max * (output_channels d + 1)) by nia.
  destruct (push_killmix_accept _ d4 max E4) as (d' & E & Ok & _); try congruence; try lia.
  exists d'. split; assumption.
Qed.

Definition looped_quad_stream : VGMSTREAM := mkVGM 4 48000 true 0 48000 0 0 0 None.

Lemma mixing_macro_crosstrack_output_witness :
  let d := mkData 4 4 false 0 VGMSTREAM_MAX_MIXING
                  (repeat mix_zero (Z.to_nat VGMSTREAM_MAX_MIXING)) [] in
  mixing_data_p (mixing_init looped_quad_stream) = Some d
  /\ exists d', mixing_data_p (mixing_macro_crosstrack 8 (mixing_init looped_quad_stream) 2) = Some d'
    /\ output_channels d' = 2.
Proof.
  intros d. split; [reflexivity|].
  apply (mixing_macro_crosstrack_output 8 (mixing_init looped_quad_stream) d 2);
    [reflexivity|reflexivity|reflexivity|simpl; lia|unfold d, VGMSTREAM_MAX_MIXING; simpl; lia].
Defined.

(** The stream component of the state [(vgmstream, ch, volume1, volume2)]. *)
Definition proj4 (st : VGMSTREAM * Z * Q * Q) : VGMSTREAM :=
  let '(v, _, _, _) := st in v.

Lemma crosslayer_layer_budget M mode max lp cp ct j st :
  0 <= max ->
  budget max (proj4 st) (proj4 (crosslayer_layer M mode max lp cp ct j st)).
Proof.
  intros Hm. destruct st as [[[v c] a] b]. unfold crosslayer_layer.
  destruct (Ascii.eqb mode "b"%char); [destruct (j =? 0)|]; cbv beta iota zeta;
    (destruct (j >? lp); [cbn [proj4]; apply budget_refl; exact Hm|]);
    destruct (j =? lp); cbv beta iota zeta; cbn [proj4];
    (replace max with (1 * Z.of_nat (Z.to_nat max)) at 1 by lia;
     match goal with
     | |- budget _ v (for_range ?n ?i ?body v) =>
         apply (for_range_budget (fun x : VGMSTREAM => x) 1 n i body v); [lia|]
     end;
     intros t x; apply push_fade_budget).
Qed.

(** [mixing_macro_crosslayer], on a looping stream, before activation, with
    [0 < max < output_channels] and room in the chain for all the fades and
    adds it pushes, ends with exactly [max] output channels, in every mode. *)
Theorem mixing_macro_crosslayer_output (MAX : Z) (M : math) (vs : VGMSTREAM) (d : mixing_data)
    (max : Z) (mode : ascii) :
  mixing_data_p vs = Some d -> mixing_on d = false -> loop_flag vs = true ->
  0 < max < output_channels d ->
  mixing_count d + max * (output_channels d + 1) * (output_channels d + 1)
    + output_channels d + 3 <= mixing_size d ->
  exists d', mixing_data_p (mixing_macro_crosslayer MAX M vs max mode) = Some d'
    /\ output_channels d' = max.
Proof.
  intros Hd Ho Hl Hmax Hs. unfold mixing_macro_crosslayer. rewrite Hd.
  replace ((max <=? 0) || (output_channels d <=? max)) with false
    by (symmetry; zcases; reflexivity || lia).
  rewrite Hl. cbv beta iota zeta.
  destruct (cross_prologue MAX vs d max) as [[vs2 oc] num] eqn:Ep.
  destruct (cross_prologue_spec MAX vs d max vs2 oc num Hd Ep) as (B1 & Hoc & Hnum).
  destruct (quot_bound oc max) as [Hn0 Hn1]; try lia. rewrite <- Hnum in Hn0, Hn1.
  match goal with
  | |- context [for_range ?n 1 ?body vs2] =>
      assert (B2 : budget (max * num * Z.of_nat n) vs2 (for_range n 1 body vs2));
      [apply (for_range_budget (fun x : VGMSTREAM => x) (max * num) n 1 body vs2); [nia|]
      |generalize dependent (for_range n 1 body vs2); intros vs3 B2]
  end.
  { intros lp x. cbv beta zeta.
    destruct (Ascii.eqb mode "e"%char); cbv beta iota;
    (match goal with
     | |- budget _ x (match for_range ?n ?i ?body ?a with _ => _ end) =>
         pose proof (for_range_budget proj4 max n i body a) as Hfr
     end;
     replace (max * num) with (max * Z.of_nat (Z.to_nat num)) by (rewrite Z2Nat.id; lia);
     apply Hfr; [lia|]; intros j st; apply crosslayer_layer_budget; lia). }
  pose proof (mix_into_first_budget max oc vs3) as B3.
  rewrite Z2Nat.id in B3 by lia.
  destruct (budget_trans _ _ _ _ _ B1 (budget_trans _ _ _ _ _ B2 B3) d Hd)
    as (d4 & E4 & On4 & S4 & O4 & C4).
  assert (Ht : 0 <= Z.of_nat (Z.to_nat (num - 1)) <= output_channels d + 1) by lia.
  assert (max * num * Z.of_nat (Z.to_nat (num - 1))
          <= max * (output_channels d + 1) * (output_channels d + 1)).
  { apply Z.mul_le_mono_nonneg; [nia|nia|lia|lia]. }
  destruct (push_killmix_accept _ d4 max E4) as (d' & E & Ok & _); try congruence; try lia.
  exists d'. split; assumption.
Qed.

Lemma mixing_macro_crosslayer_output_witness :
  let d := mkData 4 4 false 0 VGMSTREAM_MAX_MIXING
                  (repeat mix_zero (Z.to_nat VGMSTREAM_MAX_MIXING)) [] in
  mixing_data_p (mixing_init looped_quad_stream) = Some d
  /\ exists d', mixing_data_p (mixing_macro_crosslayer 8 identity_math
                                 (mixing_init looped_quad_stream) 2 "e"%char) = Some d'
    /\ output_channels d' = 2.
Proof.
  intros d. split; [reflexivity|].
  apply (mixing_macro_crosslayer_output 8 identity_math (mixing_init looped_quad_stream) d 2 "e"%char);
    [reflexivity|reflexivity|reflexivity|simpl; lia|unfold d, VGMSTREAM_MAX_MIXING; simpl; lia].
Defined.

(** ** The [MIX_LIMIT] step *)

Lemma limit_lane_spec (tmax tmin : Q) (ch : Z) (b : list Q) :
  0 <= ch < Z.of_nat (length b) -> (tmin <= tmax)%Q ->
  length (limit_lane tmax tmin ch b) = length b
  /\ (tmin <= fget (limit_lane tmax tmin ch b) ch <= tmax)%Q
  /\ (forall j, j <> ch -> fget (limit_lane tmax tmin ch b) j = fget b j).
Proof.
  intros Hc Hm. unfold limit_lane, Qlt_bool.
  destruct (Qle_bool (fget b ch) tmax) eqn:E1; simpl.
  - destruct (Qle_bool tmin (fget b ch)) eqn:E2; simpl.
    + apply Qle_bool_iff in E1, E2. repeat split; auto.
    + rewrite length_aset. split; [reflexivity|]. rewrite fget_aset, Z.eqb_refl by exact Hc.
      split; [split; [apply Qle_refl|exact Hm]|].
      intros j Hj. rewrite fget_aset by exact Hc. apply Z.eqb_neq in Hj. rewrite Hj. reflexivity.
  - rewrite length_aset. split; [reflexivity|]. rewrite fget_aset, Z.eqb_refl by exact Hc.
    split; [split; [exact Hm|apply Qle_refl]|].
    intros j Hj. rewrite fget_aset by exact Hc. apply Z.eqb_neq in Hj. rewrite Hj. reflexivity.
Qed.

Lemma limit_loop_spec (tmax tmin : Q) (n : nat) (i : Z) (b : list Q) :
  0 <= i -> i + Z.of_nat n <= Z.of_nat (length b) -> (tmin <= tmax)%Q ->
  length (for_range n i (limit_lane tmax tmin) b) = length b
  /\ (forall j, i <= j < i + Z.of_nat n ->
        (tmin <= fget (for_range n i (limit_lane tmax tmin) b) j <= tmax)%Q)
  /\ (forall j, j < i \/ i + Z.of_nat n <= j ->
        fget (for_range n i (limit_lane tmax tmin) b) j = fget b j).
Proof.
  revert i b. induction n as [|n IH]; intros i b Hi Hn Hm.
  - simpl. split; [reflexivity|split; [intros j Hj; lia|intros j Hj; reflexivity]].
  - simpl. destruct (limit_lane_spec tmax tmin i b) as (L1 & B1 & O1); [lia|exact Hm|].
    destruct (IH (i + 1) (limit_lane tmax tmin i b)) as (L & B & O); [lia|rewrite L1; lia|exact Hm|].
    split; [rewrite L, L1; reflexivity|split].
    + intros j Hj. destruct (Z.eq_dec j i) as [->|Hne].
      * rewrite O by lia. exact B1.
      * apply B. lia.
    + intros j Hj. rewrite O by lia. apply O1. lia.
Qed.

(** A [Limit] command with a non-negative volume [v] (the only kind
    [mixing_push_limit] accepts) clamps each lane it targets, all lanes
    [0 .. step_channels) for [ch_dst < 0] or lane [ch_dst] otherwise, into
    [[-32768 v, 32767 v]]; it leaves every other lane, the row length and
    the channel count unchanged. *)
Theorem apply_mix_limit_clamps (M : math) (pos n : Z) (b : list Q) (mix : mix_command_data) :
  command mix = MIX_LIMIT -> (0 <= vol mix)%Q ->
  (ch_dst mix < 0 -> 0 <= n <= Z.of_nat (length b)) ->
  (0 <= ch_dst mix -> ch_dst mix < Z.of_nat (length b)) ->
  fst (apply_mix M pos (n, b) mix) = n
  /\ length (snd (apply_mix M pos (n, b) mix)) = length b
  /\ (forall j, (if ch_dst mix <? 0 then 0 <= j < n else j = ch_dst mix) ->
        (-32768 * vol mix <= fget (snd (apply_mix M pos (n, b) mix)) j <= 32767 * vol mix)%Q)
  /\ (forall j, ~ (if ch_dst mix <? 0 then 0 <= j < n else j = ch_dst mix) ->
        fget (snd (apply_mix M pos (n, b) mix)) j = fget b j).
Proof.
  intros Hc Hv Hn Hd.
  assert (Hm : (-32768 * vol mix <= 32767 * vol mix)%Q).
  { apply Qmult_le_compat_r; [unfold Qle; simpl; lia|exact Hv]. }
  unfold apply_mix. rewrite Hc. cbv zeta.
  destruct (Z.ltb_spec0 (ch_dst mix) 0) as [Hneg|Hpos]; simpl.
  - destruct (limit_loop_spec (32767 * vol mix) (-32768 * vol mix) (Z.to_nat n) 0 b)
      as (L & B & O); [lia|specialize (Hn Hneg); lia|exact Hm|].
    split; [reflexivity|split; [exact L|split]].
    + intros j Hj. apply B. lia.
    + intros j Hj. apply O. lia.
  - destruct (limit_lane_spec (32767 * vol mix) (-32768 * vol mix) (ch_dst mix) b)
      as (L & B & O); [specialize (Hd ltac:(lia)); lia|exact Hm|].
    split; [reflexivity|split; [exact L|split]].
    + intros j ->. exact B.
    + intros j Hj. apply O. exact Hj.
Qed.

Lemma apply_mix_limit_clamps_witness :
  let mix := mkMix MIX_LIMIT (-1) 0 (1 # 2) 0 0 Ascii.zero 0 0 0 0 in
  let b := [40000; -40000; 5]%Q in
  fst (apply_mix identity_math 0%Z (2%Z, b) mix) = 2
  /\ length (snd (apply_mix identity_math 0%Z (2%Z, b) mix)) = length b
  /\ (forall j, (if ch_dst mix <? 0 then 0 <= j < 2 else j = ch_dst mix) ->
        (-32768 * vol mix <= fget (snd (apply_mix identity_math 0%Z (2%Z, b) mix)) j
         <= 32767 * vol mix)%Q)
  /\ (forall j, ~ (if ch_dst mix <? 0 then 0 <= j < 2 else j = ch_dst mix) ->
        fget (snd (apply_mix identity_math 0%Z (2%Z, b) mix)) j = fget b j).
Proof.
  intros mix b.
  apply (apply_mix_limit_clamps identity_math 0 2 b mix);
    [reflexivity|unfold Qle; simpl; lia|intros _; simpl; lia|simpl; lia].
Defined.

(** ** Position used for fades on a looping stream *)

(** [vs] with [current_sample] and [loop_count] replaced. *)
Definition at_sample (vs : VGMSTREAM) (cur cnt : Z) : VGMSTREAM :=
  mkVGM (channels vs) (sample_rate vs) (loop_flag vs) (loop_start_sample vs)
        (loop_end_sample vs) cur cnt (config_loop_count vs) (mixing_data_p vs).

(** On a looping stream the position past the loop start is unrolled by
    [loop_count] whole loops, but a block that starts exactly at
    [loop_start_sample] is placed at [loop_start_sample] whatever the loop
    count: the next sample is [1 + loop_samples * loop_count] further on. *)
Theorem get_current_pos_loop_seam (vs : VGMSTREAM) (cnt : Z) :
  loop_flag vs = true ->
  get_current_pos (at_sample vs (loop_start_sample vs) cnt) = loop_start_sample vs
  /\ get_current_pos (at_sample vs (loop_start_sample vs + 1) cnt)
     = loop_start_sample vs + 1 + (loop_end_sample vs - loop_start_sample vs) * cnt.
Proof.
  intros Hl. unfold get_current_pos, at_sample. simpl. rewrite Hl. simpl.
  replace (loop_start_sample vs >? loop_start_sample vs) with false
    by (symmetry; zcases; reflexivity || lia).
  replace (loop_start_sample vs + 1 >? loop_start_sample vs) with true
    by (symmetry; zcases; reflexivity || lia).
  split; [reflexivity|]. lia.
Qed.

Lemma get_current_pos_loop_seam_witness :
  get_current_pos (at_sample looped_quad_stream (loop_start_sample looped_quad_stream) 2)
    = loop_start_sample looped_quad_stream
  /\ get_current_pos (at_sample looped_quad_stream (loop_start_sample looped_quad_stream + 1) 2)
     = loop_start_sample looped_quad_stream + 1
       + (loop_end_sample looped_quad_stream - loop_start_sample looped_quad_stream) * 2.
Proof. apply (get_current_pos_loop_seam looped_quad_stream 2). reflexivity. Defined.

(** Two chained fades of all channels on a stereo stream. *)
Definition two_fades_calls : list mixing_call :=
  [CallFade (-1) 1 0 "T"%char (-1) 0 100 (-1); CallFade (-1) 0 1 "T"%char (-1) 200 300 (-1)].

Definition two_fades_data : mixing_data :=
  match mixing_data_p (fold_left (run_call 8 identity_math) two_fades_calls
                                 (mixing_init stereo_stream)) with
  | Some d => d
  | None => mkData 0 0 false 0 0 [] []
  end.

Lemma reachable_fades_wf_witness :
  mixing_data_p (fold_left (run_call 8 identity_math) two_fades_calls (mixing_init stereo_stream))
    = Some two_fades_data
  /\ In (nth 0 (mixing_chain two_fades_data) mix_zero) (mixing_chain two_fades_data)
  /\ command (nth 0 (mixing_chain two_fades_data) mix_zero) = MIX_FADE
  /\ fade_wf (nth 0 (mixing_chain two_fades_data) mix_zero).
Proof.
  assert (Hd : mixing_data_p (fold_left (run_call 8 identity_math) two_fades_calls
                                        (mixing_init stereo_stream)) = Some two_fades_data)
    by (vm_compute; reflexivity).
  assert (Hin : In (nth 0 (mixing_chain two_fades_data) mix_zero) (mixing_chain two_fades_data))
    by (apply nth_In; vm_compute; lia).
  assert (Hc : command (nth 0 (mixing_chain two_fades_data) mix_zero) = MIX_FADE)
    by (vm_compute; reflexivity).
  split; [exact Hd|split; [exact Hin|split; [exact Hc|]]].
  exact (reachable_fades_wf 8 identity_math stereo_stream two_fades_calls two_fades_data _ Hd Hin Hc).
Defined.
